(** * Autosys log retriever: a shallow embedding of the four scripts

    The repository holds four command-line scripts that shell out to the
    scheduler's [autorep] and [autosyslog] tools, scrape their textual
    output with regular expressions and print a report:

    - [autosys-logs.py]               (module [AutosysLogs])
    - [autosys-logs-python-auth.py]   (module [AutosysLogsAuth])
    - [autosys-minimal-system-logs.py] (module [MinimalSystemLogs])
    - [autosys-system-logs.py]        (module [SystemLogs])

    Text is modelled by Rocq strings whose characters are read as the code
    points 0 to 255.  The regular expressions of the scripts are written
    as syntax trees and run by a backtracking matcher that follows the
    priorities of Python's [re] module (leftmost start, first alternative
    first, greedy repetitions longest first, lazy ones shortest first).
    Everything outside a script (child processes, the file system, the
    terminal, the clock) is an oracle of type [world]; a run of a script
    yields the list of effects it performed and how it ended. *)

From Stdlib Require Import String Ascii List Bool Arith ZArith Lia.
From Stdlib Require Import DecimalString.
Import ListNotations.
Local Open Scope string_scope.

(** ** Characters and Python's string helpers *)

Module PyStr.

Definition code (c : ascii) : nat := nat_of_ascii c.

Definition between (lo hi : nat) (c : ascii) : bool :=
  Nat.leb lo (code c) && Nat.leb (code c) hi.

(** [str.isspace] on one character, which is also the class [\s] of [re]
    for text patterns: TAB..CR, FS..US, SPACE, NEL and NBSP. *)
Definition is_space (c : ascii) : bool :=
  between 9 13 c || between 28 32 c
  || Nat.eqb (code c) 133 || Nat.eqb (code c) 160.

(** The class [\d] of [re]: the decimal digits. *)
Definition is_digit (c : ascii) : bool := between 48 57 c.

(** The class [\w] of [re]: alphanumeric characters and the underscore. *)
Definition is_word (c : ascii) : bool :=
  between 48 57 c || between 65 90 c || between 97 122 c
  || Nat.eqb (code c) 95
  || Nat.eqb (code c) 170 || Nat.eqb (code c) 178 || Nat.eqb (code c) 179
  || Nat.eqb (code c) 181 || Nat.eqb (code c) 185 || Nat.eqb (code c) 186
  || between 188 190 c || between 192 214 c
  || between 216 246 c || between 248 255 c.

Definition newline : ascii := ascii_of_nat 10.

(** The class [.] of [re] without the DOTALL flag. *)
Definition is_dot (c : ascii) : bool := negb (Nat.eqb (code c) 10).

Definition nl : string := String newline EmptyString.

(** [str.lstrip()], [str.rstrip()] and [str.strip()] without argument. *)
Fixpoint lstrip (s : string) : string :=
  match s with
  | String c s' => if is_space c then lstrip s' else s
  | EmptyString => EmptyString
  end.

Fixpoint rstrip (s : string) : string :=
  match s with
  | String c s' =>
      match rstrip s' with
      | EmptyString => if is_space c then EmptyString else String c EmptyString
      | t => String c t
      end
  | EmptyString => EmptyString
  end.

Definition strip (s : string) : string := rstrip (lstrip s).

(** Truth value of a string and of an optional string ([None] and the
    empty string are false). *)
Definition truthy (s : string) : bool :=
  match s with EmptyString => false | _ => true end.

Definition otruthy (o : option string) : bool :=
  match o with Some s => truthy s | None => false end.

(** [str.startswith] and [str.endswith]. *)
Definition startswith (p s : string) : bool := String.prefix p s.

Fixpoint last_char (s : string) : option ascii :=
  match s with
  | EmptyString => None
  | String c EmptyString => Some c
  | String _ s' => last_char s'
  end.

Definition ends_with_slash (s : string) : bool :=
  match last_char s with
  | Some c => Ascii.eqb c "/"
  | None => false
  end.

(** [os.path.join(a, b)] of [posixpath]. *)
Definition os_path_join (a b : string) : string :=
  if startswith "/" b then b
  else if negb (truthy a) || ends_with_slash a then a ++ b
  else a ++ "/" ++ b.

(** [str(n)] for an integer. *)
Definition str_of_int (z : Z) : string := NilZero.string_of_int (Z.to_int z).

End PyStr.

(** ** Regular expressions *)

Module Re.
Import PyStr.

(** Character classes of the patterns. *)
Inductive cclass : Type :=
| CDot                       (* .  *)
| CSpace                     (* \s *)
| CWord                      (* \w *)
| CDigit                     (* \d *)
| CChar (c : ascii)          (* a literal character inside [...] *)
| CUnion (a b : cclass).     (* [ab] *)

Fixpoint in_class (k : cclass) (c : ascii) : bool :=
  match k with
  | CDot => is_dot c
  | CSpace => is_space c
  | CWord => is_word c
  | CDigit => is_digit c
  | CChar d => Ascii.eqb c d
  | CUnion a b => in_class a c || in_class b c
  end.

(** How often a class is repeated: once, [*], [+] or the lazy [*?]. *)
Inductive quant : Type := Once | Star | Plus | LazyStar.

Inductive regex : Type :=
| Lit (s : string)                  (* literal text *)
| Cls (q : quant) (k : cclass)      (* a quantified character class *)
| Seq (r1 r2 : regex)               (* r1 r2 *)
| Alt (r1 r2 : regex)               (* r1|r2 *)
| Group (n : nat) (r : regex)       (* the n-th capturing group (r) *)
| Eos.                              (* $ without MULTILINE *)

(** The groups captured so far, latest first. *)
Definition captures : Type := list (nat * string).

(** A continuation receives the rest of the text and the captures. *)
Definition cont : Type := string -> captures -> option captures.

Fixpoint strip_prefix (p s : string) : option string :=
  match p, s with
  | EmptyString, _ => Some s
  | String a p', String b s' => if Ascii.eqb a b then strip_prefix p' s' else None
  | String _ _, EmptyString => None
  end.

(** Greedy repetition: take a character if possible, give it back when
    the rest of the pattern fails. *)
Fixpoint star_greedy (p : ascii -> bool) (k : cont) (s : string) (g : captures)
  : option captures :=
  match s with
  | String c s' =>
      if p c then
        match star_greedy p k s' g with
        | Some r => Some r
        | None => k s g
        end
      else k s g
  | EmptyString => k s g
  end.

(** Lazy repetition: try the rest of the pattern first, take a character
    only when it fails. *)
Fixpoint star_lazy (p : ascii -> bool) (k : cont) (s : string) (g : captures)
  : option captures :=
  match k s g with
  | Some r => Some r
  | None =>
      match s with
      | String c s' => if p c then star_lazy p k s' g else None
      | EmptyString => None
      end
  end.

Definition match_cls (q : quant) (p : ascii -> bool) (k : cont)
  (s : string) (g : captures) : option captures :=
  match q with
  | Once =>
      match s with
      | String c s' => if p c then k s' g else None
      | EmptyString => None
      end
  | Star => star_greedy p k s g
  | Plus =>
      match s with
      | String c s' => if p c then star_greedy p k s' g else None
      | EmptyString => None
      end
  | LazyStar => star_lazy p k s g
  end.

(** [$] matches at the end of the text and before a final newline. *)
Definition at_eos (s : string) : bool :=
  match s with
  | EmptyString => true
  | String c EmptyString => Ascii.eqb c newline
  | _ => false
  end.

(** The text consumed between [s] and its suffix [s']. *)
Definition consumed (s s' : string) : string :=
  substring 0 (String.length s - String.length s') s.

(** The backtracking matcher, anchored at the start of [s]. *)
Fixpoint rmatch (r : regex) (k : cont) (s : string) (g : captures)
  : option captures :=
  match r with
  | Lit l =>
      match strip_prefix l s with
      | Some s' => k s' g
      | None => None
      end
  | Cls q c => match_cls q (in_class c) k s g
  | Seq r1 r2 => rmatch r1 (fun s' g' => rmatch r2 k s' g') s g
  | Alt r1 r2 =>
      match rmatch r1 k s g with
      | Some res => Some res
      | None => rmatch r2 k s g
      end
  | Group n r1 => rmatch r1 (fun s' g' => k s' ((n, consumed s s') :: g')) s g
  | Eos => if at_eos s then k s g else None
  end.

Definition accept : cont := fun _ g => Some g.

(** [re.search]: the match at the leftmost start position that has one. *)
Fixpoint search (r : regex) (s : string) : option captures :=
  match rmatch r accept s [] with
  | Some g => Some g
  | None =>
      match s with
      | String _ s' => search r s'
      | EmptyString => None
      end
  end.

(** [match.group(n)]. *)
Fixpoint group (n : nat) (g : captures) : option string :=
  match g with
  | (i, v) :: g' => if Nat.eqb i n then Some v else group n g'
  | [] => None
  end.

(** [m = re.search(r, s)] followed by [m.group(1)]: the outer option is
    the match, the inner one the group. *)
Definition search_group1 (r : regex) (s : string) : option (option string) :=
  option_map (group 1) (search r s).

(** The label pattern shared by the scripts,
    [<label>:\s*(.*?)(?:\s+|$)]. *)
Definition field_pattern (label : string) : regex :=
  Seq (Lit (label ++ ":"))
   (Seq (Cls Star CSpace)
    (Seq (Group 1 (Cls LazyStar CDot))
         (Alt (Cls Plus CSpace) Eos))).

(** The pattern of [extract_job_metadata],
    [<attr>:\s*(.*?)(\s|$)], with a second capturing group. *)
Definition attr_pattern (attr : string) : regex :=
  Seq (Lit (attr ++ ":"))
   (Seq (Cls Star CSpace)
    (Seq (Group 1 (Cls LazyStar CDot))
         (Group 2 (Alt (Cls Once CSpace) Eos)))).

End Re.


(** ** Effects: child processes, files, the terminal *)

Module Sys.
Import PyStr.

(** A child process that ran to its end ([subprocess.CompletedProcess]). *)
Record completed : Type := Completed {
  returncode : Z;
  stdout : string;
  stderr : string
}.

(** Starting a program given by its argument list either runs it or
    fails in the operating system (the program is not there). *)
Inductive spawn : Type :=
| Ran (c : completed)
| NotStarted (msg : string).

(** The exceptions the scripts meet.  The text [str(e)] is left to the
    runtime: printing keeps the exception itself. *)
Inductive exn : Type :=
| CalledProcessError (cmd : list string) (c : completed)
| ShellCommandError (cmd : string) (c : completed)
| OSError (msg : string)
| TypeError (msg : string)
| RuntimeError (prefix : string) (cause : exn).

(** The values the scripts put into a JSON document: [None], a string,
    an integer, or a dictionary from strings to strings (or [None]).  A
    document is a dictionary of such values, in insertion order. *)
Inductive jvalue : Type :=
| JNull
| JStr (s : string)
| JInt (z : Z)
| JDict (entries : list (string * option string)).

Definition json : Type := list (string * jvalue).

(** Everything outside the script.  The environment does not change
    during a run, and a script puts each question to it at most once, so
    the answers are functions of the question. *)
Record world : Type := World {
  run_argv : list string -> spawn;        (* a program with arguments *)
  run_shell : string -> completed;        (* a command line given to the shell *)
  path_exists : string -> bool;           (* os.path.exists *)
  read_file : string -> string + string;  (* open(p).read(): text, or an OSError *)
  getpass_line : string -> string;        (* what the user types, not echoed *)
  input_line : string -> string;          (* what the user types *)
  temp_dir : string;                      (* the directory mkdtemp makes *)
  now_isoformat : string                  (* datetime.now().isoformat() *)
}.

(** What a script does, in order. *)
Inductive event : Type :=
| Print (s : string)                          (* print(s) *)
| PrintExc (prefix : string) (e : exn)        (* print(f"<prefix>{e}") *)
| PrintErr (s : string)                       (* print(s, file=sys.stderr) *)
| PrintJson (indent : option nat) (doc : json)(* print(json.dumps(doc, indent=..)) *)
| ParserError (msg : string)                  (* parser.error(msg): usage on stderr *)
| Exec (cmd : list string) (captured : bool)  (* subprocess.run(cmd, ...) *)
| ExecShell (cmd : string)                    (* subprocess.run(cmd, shell=True, ...) *)
| Getpass (prompt : string)                   (* getpass.getpass(prompt) *)
| Input (prompt : string)                     (* input(prompt) *)
| Mkdtemp (prefix : string)                   (* tempfile.mkdtemp(prefix=..) *)
| Rmtree (path : string).                     (* shutil.rmtree(path, ignore_errors=True) *)

(** How a computation ends: with a value, with an exception, or with
    [sys.exit(code)], which [except Exception] does not catch. *)
Inductive outcome (A : Type) : Type :=
| Ok (a : A)
| Raise (e : exn)
| Exit (code : Z).
Arguments Ok {A} a.
Arguments Raise {A} e.
Arguments Exit {A} code.

Definition M (A : Type) : Type := world -> list event * outcome A.

Definition ret {A} (a : A) : M A := fun _ => ([], Ok a).

Definition bind {A B} (m : M A) (f : A -> M B) : M B := fun w =>
  match m w with
  | (t, Ok a) => let (t', r) := f a w in ((t ++ t')%list, r)
  | (t, Raise e) => (t, Raise e)
  | (t, Exit c) => (t, Exit c)
  end.

Definition raise {A} (e : exn) : M A := fun _ => ([], Raise e).
Definition sys_exit {A} (code : Z) : M A := fun _ => ([], Exit code).
Definition emit (e : event) : M unit := fun _ => ([e], Ok tt).
Definition ask {A} (f : world -> A) : M A := fun w => ([], Ok (f w)).

(** [try: m  except Exception as e: h e]. *)
Definition try_except {A} (m : M A) (h : exn -> M A) : M A := fun w =>
  match m w with
  | (t, Raise e) => let (t', r) := h e w in ((t ++ t')%list, r)
  | r => r
  end.

(** [try: m  finally: f], for a clean-up [f] that does not fail. *)
Definition try_finally {A} (m : M A) (f : M unit) : M A := fun w =>
  let (t, r) := m w in
  let (t', _) := f w in ((t ++ t')%list, r).

Declare Scope py_scope.
Delimit Scope py_scope with py.
Notation "x <- m ;; k" := (bind m (fun x => k))
  (at level 61, m at next level, right associativity) : py_scope.
Notation "m ;; k" := (bind m (fun _ => k))
  (at level 61, right associativity) : py_scope.

Local Open Scope py_scope.

Definition print (s : string) : M unit := emit (Print s).
Definition print_exc (prefix : string) (e : exn) : M unit := emit (PrintExc prefix e).
Definition print_err (s : string) : M unit := emit (PrintErr s).

(** [subprocess.run(cmd, capture_output=captured, text=True, check=True)]. *)
Definition subprocess_run (cmd : list string) (captured : bool) : M completed :=
  emit (Exec cmd captured) ;;
  r <- ask (fun w => run_argv w cmd) ;;
  match r with
  | NotStarted msg => raise (OSError msg)
  | Ran c =>
      if Z.eqb (returncode c) 0 then ret c
      else raise (CalledProcessError cmd c)
  end.

(** [subprocess.run(command, shell=True, check=True, stdout=PIPE,
    stderr=PIPE, text=True)]. *)
Definition subprocess_run_shell (command : string) : M completed :=
  emit (ExecShell command) ;;
  c <- ask (fun w => run_shell w command) ;;
  if Z.eqb (returncode c) 0 then ret c
  else raise (ShellCommandError command c).

(** [with open(path, 'r') as f: f.read()]. *)
Definition open_read (path : string) : M string :=
  r <- ask (fun w => read_file w path) ;;
  match r with
  | inl text => ret text
  | inr msg => raise (OSError msg)
  end.

Definition mkdtemp (prefix : string) : M string :=
  emit (Mkdtemp prefix) ;; ask temp_dir.

Definition rmtree (path : string) : M unit := emit (Rmtree path).

(** [s * n] on strings. *)
Fixpoint str_times (s : string) (n : nat) : string :=
  match n with
  | O => EmptyString
  | S n' => s ++ str_times s n'
  end.

(** [str(x)] for an optional string: [None] prints as its name. *)
Definition str_opt (o : option string) : string :=
  match o with Some s => s | None => "None" end.

(** [m.group(n)] used where a string is needed; a group that took no
    part in the match is [None] there. *)
Definition group_str (n : nat) (m : Re.captures) : M string :=
  match Re.group n m with
  | Some s => ret s
  | None => raise (TypeError "expected str, bytes or os.PathLike object, not NoneType")
  end.

(** The exit code of the process: 0 when [main] returns, the argument of
    [sys.exit] otherwise, 1 for an exception nobody caught. *)
Definition exit_code {A} (r : outcome A) : Z :=
  match r with
  | Ok _ => 0
  | Exit c => c
  | Raise _ => 1
  end.

End Sys.

(** ** autosys-logs.py *)

Module AutosysLogs.
Import PyStr Re Sys.
Local Open Scope py_scope.

(** The dictionary [job_details]: a fixed set of keys, each value a
    string or [None]. *)
Record job_details : Type := JobDetails {
  job_name : string;
  status : option string;
  last_run : option string;
  std_out_file : option string;
  std_err_file : option string
}.

Definition set_status (v : option string) (d : job_details) : job_details :=
  JobDetails (job_name d) v (last_run d) (std_out_file d) (std_err_file d).
Definition set_last_run (v : option string) (d : job_details) : job_details :=
  JobDetails (job_name d) (status d) v (std_out_file d) (std_err_file d).
Definition set_std_out_file (v : option string) (d : job_details) : job_details :=
  JobDetails (job_name d) (status d) (last_run d) v (std_err_file d).
Definition set_std_err_file (v : option string) (d : job_details) : job_details :=
  JobDetails (job_name d) (status d) (last_run d) (std_out_file d) v.

(** [r"Status/Event: (\w+)"] *)
Definition status_re : regex :=
  Seq (Lit "Status/Event: ") (Group 1 (Cls Plus CWord)).

(** [r"Last Run: ([\d\/]+\s+[\d:]+)"] *)
Definition last_run_re : regex :=
  Seq (Lit "Last Run: ")
      (Group 1 (Seq (Cls Plus (CUnion CDigit (CChar "/")))
               (Seq (Cls Plus CSpace)
                    (Cls Plus (CUnion CDigit (CChar ":")))))).

(** [r"std_out_file:\s*(.*?)(?:\s+|$)"] and its two siblings. *)
Definition std_out_file_re : regex := field_pattern "std_out_file".
Definition std_err_file_re : regex := field_pattern "std_err_file".
Definition job_dir_re : regex := field_pattern "job_dir".

(** The body of the [try] block of [get_job_details] after the command
    has returned [output]. *)
Definition fill_job_details (job_name output : string) : M job_details :=
  let job_details := JobDetails job_name None None None None in
  let job_details :=
    match search status_re output with
    | Some status_match => set_status (group 1 status_match) job_details
    | None => job_details
    end in
  let job_details :=
    match search last_run_re output with
    | Some last_run_match => set_last_run (group 1 last_run_match) job_details
    | None => job_details
    end in
  let job_details :=
    match search std_out_file_re output with
    | Some std_out_match =>
        if otruthy (group 1 std_out_match)
        then set_std_out_file (group 1 std_out_match) job_details
        else job_details
    | None => job_details
    end in
  let job_details :=
    match search std_err_file_re output with
    | Some std_err_match =>
        if otruthy (group 1 std_err_match)
        then set_std_err_file (group 1 std_err_match) job_details
        else job_details
    | None => job_details
    end in
  job_details <-
    (if negb (otruthy (std_out_file job_details))
        || negb (otruthy (std_err_file job_details))
     then
       match search job_dir_re output with
       | Some log_dir_match =>
           log_dir <- group_str 1 log_dir_match ;;
           let job_details :=
             if negb (otruthy (std_out_file job_details))
             then set_std_out_file
                    (Some (os_path_join log_dir (job_name ++ ".out"))) job_details
             else job_details in
           let job_details :=
             if negb (otruthy (std_err_file job_details))
             then set_std_err_file
                    (Some (os_path_join log_dir (job_name ++ ".err"))) job_details
             else job_details in
           ret job_details
       | None => ret job_details
       end
     else ret job_details) ;;
  ret job_details.

Definition get_job_details (job_name : string) : M job_details :=
  try_except
    (let cmd := ["autorep"; "-j"; job_name; "-L"] in
     result <- subprocess_run cmd true ;;
     let output := stdout result in
     fill_job_details job_name output)
    (fun e =>
       match e with
       | CalledProcessError _ c =>
           print_exc "Error retrieving job details: " e ;;
           print ("stderr: " ++ stderr c) ;;
           sys_exit 1
       | _ =>
           print_exc "Unexpected error: " e ;;
           sys_exit 1
       end).

(** One stream of [get_job_logs]: [path] is [job_details.get(key)],
    [name] is STDOUT or STDERR, [flag] the option of [autosyslog]. *)
Definition show_stream (job_name : string) (path : option string)
  (upper lower flag : string) : M unit :=
  if otruthy path then
    let p := str_opt path in
    print (nl ++ upper ++ " LOG (" ++ p ++ "):") ;;
    print (str_times "-" 80) ;;
    try_except
      (ex <- ask (fun w => path_exists w p) ;;
       if (ex : bool) then
         text <- open_read p ;;
         print text
       else
         print ("Direct access to " ++ lower
                ++ " file failed. Attempting to retrieve via Autosys utilities...") ;;
         let cmd := ["autosyslog"; "-j"; job_name; flag] in
         _ <- subprocess_run cmd false ;;
         ret tt)
      (fun e => print_exc ("Error accessing " ++ lower ++ " log: ") e)
  else
    print (nl ++ upper ++ " LOG: Not available").

Definition get_job_logs (job_details : job_details) : M unit :=
  temp_dir <- mkdtemp "autosys_logs_" ;;
  try_finally
    (print (nl ++ str_times "=" 80) ;;
     print ("Job Name: " ++ job_name job_details) ;;
     print ("Status: " ++ str_opt (status job_details)) ;;
     print ("Last Run: " ++ str_opt (last_run job_details)) ;;
     print (str_times "=" 80 ++ nl) ;;
     show_stream (job_name job_details) (std_out_file job_details)
                 "STDOUT" "stdout" "-o" ;;
     show_stream (job_name job_details) (std_err_file job_details)
                 "STDERR" "stderr" "-e")
    (rmtree temp_dir).

(** [main], given [sys.argv]. *)
Definition main (argv : list string) : M unit :=
  if negb (Nat.eqb (List.length argv) 2) then
    print ("Usage: " ++ nth 0 argv EmptyString ++ " <job_name>") ;;
    sys_exit 1
  else
    let job_name := nth 1 argv EmptyString in
    print ("Retrieving logs for Autosys job: " ++ job_name) ;;
    job_details <- get_job_details job_name ;;
    get_job_logs job_details.

End AutosysLogs.

(** ** autosys-logs-python-auth.py *)

Module AutosysLogsAuth.
Import PyStr Re Sys.
Local Open Scope py_scope.

(** The attributes of an [AutosysLogRetriever] set from the arguments of
    [__init__]; the compiled patterns are the constants below. *)
Record AutosysLogRetriever : Type := Retriever {
  username : option string;
  password : option string;
  instance : option string;
  server : option string
}.

(** [r"Status/Event:\s+(\w+)"] *)
Definition STATUS_PATTERN : regex :=
  Seq (Lit "Status/Event:") (Seq (Cls Plus CSpace) (Group 1 (Cls Plus CWord))).

(** [r"Last Run:\s+([\d/]+\s+[\d:]+)"] *)
Definition LAST_RUN_PATTERN : regex :=
  Seq (Lit "Last Run:")
   (Seq (Cls Plus CSpace)
      (Group 1 (Seq (Cls Plus (CUnion CDigit (CChar "/")))
               (Seq (Cls Plus CSpace)
                    (Cls Plus (CUnion CDigit (CChar ":"))))))).

Definition STD_OUT_FILE_PATTERN : regex := field_pattern "std_out_file".
Definition STD_ERR_FILE_PATTERN : regex := field_pattern "std_err_file".
Definition JOB_DIR_PATTERN : regex := field_pattern "job_dir".

(** The same dictionary as in the plain script. *)
Record job_details : Type := JobDetails {
  job_name : string;
  status : option string;
  last_run : option string;
  std_out_file : option string;
  std_err_file : option string
}.

Definition set_status (v : option string) (d : job_details) : job_details :=
  JobDetails (job_name d) v (last_run d) (std_out_file d) (std_err_file d).
Definition set_last_run (v : option string) (d : job_details) : job_details :=
  JobDetails (job_name d) (status d) v (std_out_file d) (std_err_file d).
Definition set_std_out_file (v : option string) (d : job_details) : job_details :=
  JobDetails (job_name d) (status d) (last_run d) v (std_err_file d).
Definition set_std_err_file (v : option string) (d : job_details) : job_details :=
  JobDetails (job_name d) (status d) (last_run d) (std_out_file d) v.

(** [if value: cmd.extend([flag, value])]. *)
Definition extend_if (flag : string) (value : option string)
  (cmd : list string) : list string :=
  match value with
  | Some v => if truthy v then (cmd ++ [flag; v])%list else cmd
  | None => cmd
  end.

(** The command line [get_job_details] builds. *)
Definition autorep_cmd (self : AutosysLogRetriever) (job_name : string)
  : list string :=
  let cmd := ["autorep"; "-j"; job_name; "-L"] in
  let cmd := extend_if "-u" (username self) cmd in
  let cmd := extend_if "-p" (password self) cmd in
  let cmd := extend_if "-i" (instance self) cmd in
  let cmd := extend_if "-s" (server self) cmd in
  cmd.

(** The command line [retrieve_log_via_autosys] builds. *)
Definition autosyslog_cmd (self : AutosysLogRetriever) (job_name : string)
  (is_stdout : bool) : list string :=
  let cmd := ["autosyslog"; "-j"; job_name; if is_stdout then "-o" else "-e"] in
  let cmd := extend_if "-u" (username self) cmd in
  let cmd := extend_if "-p" (password self) cmd in
  let cmd := extend_if "-i" (instance self) cmd in
  let cmd := extend_if "-s" (server self) cmd in
  cmd.

(** [m.group(1).strip()]. *)
Definition group1_strip (m : captures) : option string :=
  option_map strip (group 1 m).

(** The body of the [try] block of [get_job_details] after the command
    has returned [output]. *)
Definition fill_job_details (job_name output : string) : M job_details :=
  let job_details := JobDetails job_name None None None None in
  let job_details :=
    match search STATUS_PATTERN output with
    | Some status_match => set_status (group 1 status_match) job_details
    | None => job_details
    end in
  let job_details :=
    match search LAST_RUN_PATTERN output with
    | Some last_run_match => set_last_run (group 1 last_run_match) job_details
    | None => job_details
    end in
  let job_details :=
    match search STD_OUT_FILE_PATTERN output with
    | Some std_out_match =>
        if otruthy (group 1 std_out_match)
        then set_std_out_file (group1_strip std_out_match) job_details
        else job_details
    | None => job_details
    end in
  let job_details :=
    match search STD_ERR_FILE_PATTERN output with
    | Some std_err_match =>
        if otruthy (group 1 std_err_match)
        then set_std_err_file (group1_strip std_err_match) job_details
        else job_details
    | None => job_details
    end in
  job_details <-
    (if negb (otruthy (std_out_file job_details))
        || negb (otruthy (std_err_file job_details))
     then
       match search JOB_DIR_PATTERN output with
       | Some log_dir_match =>
           g <- group_str 1 log_dir_match ;;
           let log_dir := strip g in
           let job_details :=
             if negb (otruthy (std_out_file job_details))
             then set_std_out_file
                    (Some (os_path_join log_dir (job_name ++ ".out"))) job_details
             else job_details in
           let job_details :=
             if negb (otruthy (std_err_file job_details))
             then set_std_err_file
                    (Some (os_path_join log_dir (job_name ++ ".err"))) job_details
             else job_details in
           ret job_details
       | None => ret job_details
       end
     else ret job_details) ;;
  ret job_details.

Definition get_job_details (self : AutosysLogRetriever) (job_name : string)
  : M job_details :=
  let cmd := autorep_cmd self job_name in
  try_except
    (result <- subprocess_run cmd true ;;
     let output := stdout result in
     fill_job_details job_name output)
    (fun e =>
       match e with
       | CalledProcessError _ c =>
           print_exc "Error retrieving job details: " e ;;
           print ("stderr: " ++ stderr c) ;;
           raise e
       | _ =>
           print_exc "Unexpected error: " e ;;
           raise (RuntimeError "Failed to retrieve job details: " e)
       end).

Definition retrieve_log_via_autosys (self : AutosysLogRetriever)
  (job_name : string) (is_stdout : bool) : M unit :=
  let cmd := autosyslog_cmd self job_name is_stdout in
  try_except
    (result <- subprocess_run cmd true ;;
     print (stdout result))
    (fun e =>
       match e with
       | CalledProcessError _ c =>
           print ("Error running autosyslog command. Exit code: "
                  ++ str_of_int (returncode c)) ;;
           print ("Error message: " ++ stderr c)
       | _ => raise e
       end).

(** One stream of [get_job_logs]. *)
Definition show_stream (self : AutosysLogRetriever) (job_name : string)
  (path : option string) (upper lower : string) (is_stdout : bool) : M unit :=
  if otruthy path then
    let p := str_opt path in
    print (nl ++ upper ++ " LOG (" ++ p ++ "):") ;;
    print (str_times "-" 80) ;;
    try_except
      (ex <- ask (fun w => path_exists w p) ;;
       if (ex : bool) then
         text <- open_read p ;;
         print text
       else
         print ("Direct access to " ++ lower
                ++ " file failed. Attempting to retrieve via Autosys utilities...") ;;
         retrieve_log_via_autosys self job_name is_stdout)
      (fun e => print_exc ("Error accessing " ++ lower ++ " log: ") e)
  else
    print (nl ++ upper ++ " LOG: Not available").

Definition get_job_logs (self : AutosysLogRetriever) (job_details : job_details)
  : M unit :=
  temp_dir <- mkdtemp "autosys_logs_" ;;
  try_finally
    (print (nl ++ str_times "=" 80) ;;
     print ("Job Name: " ++ job_name job_details) ;;
     print ("Status: " ++ str_opt (status job_details)) ;;
     print ("Last Run: " ++ str_opt (last_run job_details)) ;;
     print (str_times "=" 80 ++ nl) ;;
     show_stream self (job_name job_details) (std_out_file job_details)
                 "STDOUT" "stdout" true ;;
     show_stream self (job_name job_details) (std_err_file job_details)
                 "STDERR" "stderr" false)
    (rmtree temp_dir).

(** The namespace [parser.parse_args()] returns. *)
Record namespace : Type := Namespace {
  ns_job_name : option string;
  ns_username : option string;
  ns_password : option string;
  ns_instance : option string;
  ns_server : option string;
  ns_job_name_positional : option string
}.

(** [parse_arguments] after [parser.parse_args()] has returned [args]. *)
Definition parse_arguments (args : namespace) : M namespace :=
  let args :=
    if negb (otruthy (ns_job_name args)) && otruthy (ns_job_name_positional args)
    then Namespace (ns_job_name_positional args) (ns_username args)
                   (ns_password args) (ns_instance args) (ns_server args)
                   (ns_job_name_positional args)
    else args in
  if negb (otruthy (ns_job_name args)) then
    emit (ParserError
      "Job name is required. Use -j/--job or provide as positional argument.") ;;
    sys_exit 2
  else ret args.

(** The [try] block that ends [main], with the credentials as they are
    after the prompts. *)
Definition retrieve (username password instance server : option string)
  (job_name : string) : M Z :=
  try_except
    (let retriever := Retriever username password instance server in
     job_details <- get_job_details retriever job_name ;;
     get_job_logs retriever job_details ;;
     ret 0%Z)
    (fun e =>
       print_exc "Error: " e ;;
       ret 1%Z).

(** [main], given the namespace of the command line; the result is the
    value [main] returns. *)
Definition main (parsed : namespace) : M Z :=
  args <- parse_arguments parsed ;;
  print (nl ++ str_times "=" 20 ++ " Autosys Log Retriever " ++ str_times "=" 20) ;;
  print ("Retrieving logs for job: " ++ str_opt (ns_job_name args)) ;;
  let username := ns_username args in
  let password := ns_password args in
  let instance := ns_instance args in
  password <-
    (if otruthy username && negb (otruthy password) then
       let prompt := "Enter password for " ++ str_opt username ++ ": " in
       emit (Getpass prompt) ;;
       line <- ask (fun w => getpass_line w prompt) ;;
       ret (Some line)
     else ret password) ;;
  instance <-
    (if otruthy username && negb (otruthy instance) then
       let prompt := "Enter Autosys instance name: " in
       emit (Input prompt) ;;
       line <- ask (fun w => input_line w prompt) ;;
       ret (Some line)
     else ret instance) ;;
  retrieve username password instance (ns_server args)
           (str_opt (ns_job_name args)).

(** [sys.exit(main())]. *)
Definition script (parsed : namespace) : M unit :=
  code <- main parsed ;;
  sys_exit code.

End AutosysLogsAuth.

(** ** autosys-minimal-system-logs.py *)

Module MinimalSystemLogs.
Import PyStr Re Sys.
Local Open Scope py_scope.

(** [run_command]: the stripped output, or [None] after the two error
    lines (here on standard output). *)
Definition run_command (command : string) : M (option string) :=
  try_except
    (result <- subprocess_run_shell command ;;
     ret (Some (strip (stdout result))))
    (fun e =>
       match e with
       | ShellCommandError _ c =>
           print ("Error running command: " ++ command) ;;
           print ("Error message: " ++ strip (stderr c)) ;;
           ret None
       | _ => raise e
       end).

(** Truth value of an optional integer: [None] and 0 are false. *)
Definition int_truthy (n : option Z) : bool :=
  match n with
  | Some z => negb (Z.eqb z 0)
  | None => false
  end.

Definition json_of_opt_str (o : option string) : jvalue :=
  match o with Some s => JStr s | None => JNull end.

Definition json_of_opt_int (o : option Z) : jvalue :=
  match o with Some z => JInt z | None => JNull end.

Definition str_opt_int (o : option Z) : string :=
  match o with Some z => str_of_int z | None => "None" end.

Definition get_system_logs (job_name : string) (run_number : option Z) : M json :=
  let command :=
    if int_truthy run_number
    then "autosyslog -j " ++ job_name ++ " -r " ++ str_opt_int run_number
    else "autosyslog -j " ++ job_name in
  system_logs <- run_command command ;;
  let results :=
    [("job_name", JStr job_name);
     ("run_number", json_of_opt_int run_number);
     ("system_logs", json_of_opt_str system_logs)] in
  ret results.

(** The arguments [--job], [--run] and [--pretty]. *)
Record args : Type := Args {
  job : string;
  run : option Z;
  pretty : bool
}.

Definition main (a : args) : M unit :=
  let job_name := job a in
  let run_number := run a in
  let pretty_print := pretty a in
  log_data <- get_system_logs job_name run_number ;;
  if pretty_print then emit (PrintJson (Some 2) log_data)
  else emit (PrintJson None log_data).

End MinimalSystemLogs.

(** ** autosys-system-logs.py *)

Module SystemLogs.
Import PyStr Re Sys.
Local Open Scope py_scope.

(** [run_command]: the stripped output, or [None] after the two error
    lines on standard error. *)
Definition run_command (command : string) : M (option string) :=
  try_except
    (result <- subprocess_run_shell command ;;
     ret (Some (strip (stdout result))))
    (fun e =>
       match e with
       | ShellCommandError _ c =>
           print_err ("Error running command: " ++ command) ;;
           print_err ("Error message: " ++ strip (stderr c)) ;;
           ret None
       | _ => raise e
       end).

(** The dictionary [get_system_logs] returns. *)
Record logs_data : Type := LogsData {
  job_info : option string;
  system_logs : option string;
  run_details : option string;
  status_history : option string
}.

Definition int_truthy (n : option Z) : bool :=
  match n with
  | Some z => negb (Z.eqb z 0)
  | None => false
  end.

Definition str_opt_int (o : option Z) : string :=
  match o with Some z => str_of_int z | None => "None" end.

Definition get_system_logs (job_name : string) (run_number : option Z)
  : M logs_data :=
  job_info <- run_command ("autorep -j " ++ job_name ++ " -q") ;;
  logs <-
    (if int_truthy run_number then
       system_logs <- run_command ("autosyslog -j " ++ job_name ++ " -r "
                                   ++ str_opt_int run_number) ;;
       run_details <- run_command ("autorep -j " ++ job_name ++ " -r "
                                   ++ str_opt_int run_number) ;;
       ret (system_logs, run_details)
     else
       system_logs <- run_command ("autosyslog -j " ++ job_name) ;;
       run_details <- run_command ("autorep -j " ++ job_name ++ " -l") ;;
       ret (system_logs, run_details)) ;;
  status_history <- run_command ("autorep -j " ++ job_name ++ " -s") ;;
  ret (LogsData job_info (fst logs) (snd logs) status_history).

Definition attributes : list string :=
  ["machine"; "box_name"; "command"; "condition";
   "date_conditions"; "days_of_week"; "start_times";
   "job_type"; "priority"; "max_run_alarm"; "alarm_if_fail"].

(** The dictionary [metadata], in insertion order; [None] as a value is
    what [m.group(1)] gives for a group that took no part. *)
Definition metadata_dict : Type := list (string * option string).

(** One round of the loop of [extract_job_metadata]. *)
Definition extract_attr (job_info : string) (metadata : metadata_dict)
  (attr : string) : metadata_dict :=
  match search (attr_pattern attr) job_info with
  | Some m => (metadata ++ [(attr, group 1 m)])%list
  | None => metadata
  end.

Definition extract_job_metadata (job_info : option string) : metadata_dict :=
  let metadata := [] in
  if negb (otruthy job_info) then metadata
  else fold_left (extract_attr (str_opt job_info)) attributes metadata.

(** The arguments [--job], [--run] and [--format]. *)
Record args : Type := Args {
  job : string;
  run : option Z;
  format : string
}.

Definition json_of_opt_str (o : option string) : jvalue :=
  match o with Some s => JStr s | None => JNull end.

Definition json_of_opt_int (o : option Z) : jvalue :=
  match o with Some z => JInt z | None => JNull end.

Fixpoint print_items (m : metadata_dict) : M unit :=
  match m with
  | (key, value) :: m' =>
      print (key ++ ": " ++ str_opt value) ;;
      print_items m'
  | [] => ret tt
  end.

Definition main (a : args) : M unit :=
  let job_name := job a in
  let run_number := run a in
  let output_format := format a in
  logs_data <- get_system_logs job_name run_number ;;
  let metadata := extract_job_metadata (job_info logs_data) in
  timestamp <- ask now_isoformat ;;
  let output :=
    [("job_name", JStr job_name);
     ("run_number", json_of_opt_int run_number);
     ("timestamp", JStr timestamp);
     ("metadata", JDict metadata);
     ("system_logs", json_of_opt_str (system_logs logs_data));
     ("run_details", json_of_opt_str (run_details logs_data));
     ("status_history", json_of_opt_str (status_history logs_data))] in
  if String.eqb output_format "json" then
    emit (PrintJson (Some 2) output)
  else
    print ("=== AutoSys System Logs for Job: " ++ job_name ++ " ===") ;;
    print ("Run Number: "
           ++ (if int_truthy run_number then str_opt_int run_number else "Latest")) ;;
    print ("Timestamp: " ++ timestamp) ;;
    print (nl ++ "=== Job Metadata ===") ;;
    print_items metadata ;;
    print (nl ++ "=== Run Details ===") ;;
    print (str_opt (run_details logs_data)) ;;
    print (nl ++ "=== Status History ===") ;;
    print (str_opt (status_history logs_data)) ;;
    print (nl ++ "=== System Logs ===") ;;
    print (str_opt (system_logs logs_data)).

End SystemLogs.

(** ** What the label pattern finds, said without regular expressions *)

Module Labelled.
Import PyStr Re.

(** The text after the first occurrence of [needle] in [s]. *)
Fixpoint find_after (needle s : string) : option string :=
  match strip_prefix needle s with
  | Some rest => Some rest
  | None =>
      match s with
      | String _ s' => find_after needle s'
      | EmptyString => None
      end
  end.

(** The longest prefix of [s] without whitespace, and what follows it. *)
Fixpoint token (s : string) : string :=
  match s with
  | String c s' => if is_space c then EmptyString else String c (token s')
  | EmptyString => EmptyString
  end.

Fixpoint after_token (s : string) : string :=
  match s with
  | String c s' => if is_space c then s else after_token s'
  | EmptyString => EmptyString
  end.

(** The value of a label: the first whitespace-delimited token after the
    first occurrence of [<label>:], empty when only whitespace follows up
    to the end of the text; [None] when the label does not occur. *)
Definition value_after (label text : string) : option string :=
  option_map (fun rest => token (lstrip rest)) (find_after (label ++ ":") text).

(** The label has a value that is not empty. *)
Definition explicit_value (label text : string) : option string :=
  match value_after label text with
  | Some v => if truthy v then Some v else None
  | None => None
  end.

(** Every character of [s] satisfies [p]. *)
Fixpoint all_chars (p : ascii -> bool) (s : string) : bool :=
  match s with
  | String c s' => p c && all_chars p s'
  | EmptyString => true
  end.

Definition no_space (s : string) : Prop :=
  all_chars (fun c => negb (is_space c)) s = true.

Definition no_newline (s : string) : Prop :=
  all_chars (fun c => negb (Ascii.eqb c newline)) s = true.

(** [s] neither starts nor ends with whitespace. *)
Definition is_stripped (s : string) : Prop :=
  match s with
  | String c _ => is_space c = false
  | EmptyString => True
  end /\
  match last_char s with
  | Some c => is_space c = false
  | None => True
  end.

(** What may follow the value group: it fails before a character that is
    no whitespace, matches at whitespace and at the end of the text, and
    leaves group 1 alone. *)
Definition terminator (t : regex) : Prop :=
  (forall c s g, is_space c = false -> rmatch t accept (String c s) g = None) /\
  (forall s g, after_token s = s ->
     exists g', rmatch t accept s g = Some g' /\ group 1 g' = group 1 g).


(** [m.group(1)] of [re.search(r, text)], [None] without a match. *)
Definition first_group (r : regex) (text : string) : option string :=
  match search r text with
  | Some m => group 1 m
  | None => None
  end.

(** The path of one stream after extraction and derivation: the explicit
    value of the label, else the job directory joined with
    [<job_name><ext>], else nothing. *)
Definition resolved_path (label ext job_name text : string) : option string :=
  match explicit_value label text with
  | Some v => Some v
  | None =>
      option_map (fun d => os_path_join d (job_name ++ ext))
                 (value_after "job_dir" text)
  end.

End Labelled.

(** ** Reading a run: events of one kind, fields of a document *)

Module Observe.
Import PyStr Re Sys.

Definition is_exec (e : event) : bool :=
  match e with
  | Exec _ _ | ExecShell _ => true
  | _ => false
  end.

Definition is_getpass (e : event) : bool :=
  match e with Getpass _ => true | _ => false end.

Definition is_input (e : event) : bool :=
  match e with Input _ => true | _ => false end.

Definition is_prompt (e : event) : bool := is_getpass e || is_input e.

Definition is_json (e : event) : bool :=
  match e with PrintJson _ _ => true | _ => false end.

Definition is_print (e : event) : bool :=
  match e with Print _ | PrintExc _ _ | PrintJson _ _ => true | _ => false end.

Definition count (p : event -> bool) (t : list event) : nat :=
  List.length (filter p t).

(** The value of a key of a document. *)
Fixpoint lookup (key : string) (doc : json) : option jvalue :=
  match doc with
  | (k, v) :: doc' => if String.eqb k key then Some v else lookup key doc'
  | [] => None
  end.

(** A computation none of whose runs performs an event of kind [p]. *)
Definition avoids {A} (p : event -> bool) (m : M A) : Prop :=
  forall w, existsb p (fst (m w)) = false.


(** The questions [main] of the authenticated script asks, and the
    credentials it goes on with. *)
Definition password_prompt (parsed : AutosysLogsAuth.namespace) : string :=
  "Enter password for " ++ str_opt (AutosysLogsAuth.ns_username parsed) ++ ": ".

Definition instance_prompt : string := "Enter Autosys instance name: ".

Definition asks_password (parsed : AutosysLogsAuth.namespace) : bool :=
  otruthy (AutosysLogsAuth.ns_username parsed)
  && negb (otruthy (AutosysLogsAuth.ns_password parsed)).

Definition asks_instance (parsed : AutosysLogsAuth.namespace) : bool :=
  otruthy (AutosysLogsAuth.ns_username parsed)
  && negb (otruthy (AutosysLogsAuth.ns_instance parsed)).

Definition prompt_events (parsed : AutosysLogsAuth.namespace) : list event :=
  (if asks_password parsed then [Getpass (password_prompt parsed)] else [])
  ++ (if asks_instance parsed then [Input instance_prompt] else []).

Definition final_password (parsed : AutosysLogsAuth.namespace) (w : world)
  : option string :=
  if asks_password parsed then Some (getpass_line w (password_prompt parsed))
  else AutosysLogsAuth.ns_password parsed.

Definition final_instance (parsed : AutosysLogsAuth.namespace) (w : world)
  : option string :=
  if asks_instance parsed then Some (input_line w instance_prompt)
  else AutosysLogsAuth.ns_instance parsed.

Definition banner (job_name : string) : list event :=
  [Print (nl ++ str_times "=" 20 ++ " Autosys Log Retriever " ++ str_times "=" 20);
   Print ("Retrieving logs for job: " ++ job_name)].

(** The flags for the credentials that are given and not empty, in the
    order user, password, instance, server. *)
Definition flag (name : string) (value : option string) : list string :=
  match value with
  | Some v => if truthy v then [name; v] else []
  | None => []
  end.

Definition credential_flags (self : AutosysLogsAuth.AutosysLogRetriever)
  : list string :=
  flag "-u" (AutosysLogsAuth.username self)
  ++ flag "-p" (AutosysLogsAuth.password self)
  ++ flag "-i" (AutosysLogsAuth.instance self)
  ++ flag "-s" (AutosysLogsAuth.server self).

(** What [run_command] returns for [cmd] in [w]. *)
Definition shell_result (w : world) (cmd : string) : option string :=
  let c := run_shell w cmd in
  if Z.eqb (returncode c) 0 then Some (strip (stdout c)) else None.

(** The section of one stream in the report of the log retrievers: its
    two header lines, and what reading the file at [path] prints. *)
Definition stream_header (upper path : string) : list event :=
  [Print (nl ++ upper ++ " LOG (" ++ path ++ "):"); Print (str_times "-" 80)].

Definition direct_read (w : world) (lower path : string) : list event :=
  match read_file w path with
  | inl text => [Print text]
  | inr msg => [PrintExc ("Error accessing " ++ lower ++ " log: ") (OSError msg)]
  end.


(** The pattern inside the group of the two last-run patterns,
    [[\d/]+\s+[\d:]+]. *)
Definition date_time : regex :=
  Seq (Cls Plus (CUnion CDigit (CChar "/")))
      (Seq (Cls Plus CSpace) (Cls Plus (CUnion CDigit (CChar ":")))).



(** The command lines of the summarizers. *)
Definition info_command (job : string) : string :=
  "autorep -j " ++ job ++ " -q".

Definition syslog_command (job : string) (run : option Z) : string :=
  if SystemLogs.int_truthy run
  then "autosyslog -j " ++ job ++ " -r " ++ SystemLogs.str_opt_int run
  else "autosyslog -j " ++ job.

Definition details_command (job : string) (run : option Z) : string :=
  if SystemLogs.int_truthy run
  then "autorep -j " ++ job ++ " -r " ++ SystemLogs.str_opt_int run
  else "autorep -j " ++ job ++ " -l".

Definition status_command (job : string) : string :=
  "autorep -j " ++ job ++ " -s".

(** What one call of [run_command] leaves in the run: the command, and
    after a failure the two error lines, printed by [out]. *)
Definition command_events (out : string -> event) (w : world) (cmd : string)
  : list event :=
  let c := run_shell w cmd in
  ExecShell cmd ::
  (if Z.eqb (returncode c) 0 then []
   else [out ("Error running command: " ++ cmd);
         out ("Error message: " ++ strip (stderr c))]).

(** A text field of a report: [None], or a string without whitespace at
    either end. *)
Definition null_or_stripped (v : option jvalue) : Prop :=
  v = Some JNull \/ exists s, v = Some (JStr s) /\ Labelled.is_stripped s.



End Observe.

(** ** Sample environments *)

Module Samples.
Import PyStr Re Sys.

(** Every program started with an argument list ends as [c]; every shell
    command ends as [sh cmd]; the files in [files] exist and read as
    empty; the user types [typed] at every prompt. *)
Definition sample_world (c : completed) (sh : string -> completed)
  (files : list string) (typed : string) : world :=
  World (fun _ => Ran c) sh
        (fun p => existsb (String.eqb p) files)
        (fun p => if existsb (String.eqb p) files then inl EmptyString
                  else inr "No such file or directory")
        (fun _ => typed) (fun _ => typed)
        "/tmp/autosys_logs_x" "2025-04-09T12:00:00".

Definition succeeds (out : string) : completed := Completed 0 out EmptyString.
Definition breaks : completed := Completed 1 EmptyString "autorep: invalid job".

End Samples.

(** ** The other patterns and the presenter, said without the matcher *)

Module Scan.
Import PyStr Re Sys Labelled.

(** The longest prefix of [s] whose characters satisfy [p], and what
    follows it. *)
Fixpoint take_while (p : ascii -> bool) (s : string) : string :=
  match s with
  | String c s' => if p c then String c (take_while p s') else EmptyString
  | EmptyString => EmptyString
  end.

Fixpoint drop_while (p : ascii -> bool) (s : string) : string :=
  match s with
  | String c s' => if p c then drop_while p s' else s
  | EmptyString => EmptyString
  end.

(** The classes [[\d/]] and [[\d:]]. *)
Definition is_date (c : ascii) : bool := in_class (CUnion CDigit (CChar "/")) c.
Definition is_time (c : ascii) : bool := in_class (CUnion CDigit (CChar ":")) c.

(** A word at the start of [rest]: its longest run of word characters,
    when there is one. *)
Definition word_at (rest : string) : option string :=
  let w := take_while is_word rest in
  if truthy w then Some w else None.

(** A date, whitespace and a time at the start of [rest]: the longest run
    of digits and slashes, the whitespace after it, and the longest run of
    digits and colons after that, none of them empty. *)
Definition date_time_at (rest : string) : option string :=
  let d := take_while is_date rest in
  let r1 := drop_while is_date rest in
  let sp := take_while is_space r1 in
  let r2 := drop_while is_space r1 in
  let t := take_while is_time r2 in
  if truthy d && truthy sp && truthy t then Some (d ++ sp ++ t) else None.

(** [f] after at least one whitespace character. *)
Definition spaced (f : string -> option string) (rest : string) : option string :=
  match rest with
  | String c _ => if is_space c then f (drop_while is_space rest) else None
  | EmptyString => None
  end.

(** [f] on what follows [lit] at the start of [s]. *)
Definition labelled (lit : string) (f : string -> option string) (s : string)
  : option string :=
  match strip_prefix lit s with
  | Some rest => f rest
  | None => None
  end.

(** [f] at the leftmost position of [s] where it gives a result. *)
Fixpoint leftmost (f : string -> option string) (s : string) : option string :=
  match f s with
  | Some v => Some v
  | None =>
      match s with
      | String _ s' => leftmost f s'
      | EmptyString => None
      end
  end.

(** The attributes whose label occurs in [info], in the order of the
    list, each with the token after its label. *)
Definition metadata_of (info : string) : SystemLogs.metadata_dict :=
  flat_map (fun attr =>
              match value_after attr info with
              | Some v => [(attr, Some v)]
              | None => []
              end)
           SystemLogs.attributes.

End Scan.

(** ** The report of the log retrievers, section by section *)

Module Present.
Import PyStr Re Sys Observe.

(** A stream needs the fallback command: its path is resolved and does
    not exist. *)
Definition needs_fallback (w : world) (path : option string) : bool :=
  otruthy path && negb (path_exists w (str_opt path)).

Definition direct_access_failed (lower : string) : event :=
  Print ("Direct access to " ++ lower
         ++ " file failed. Attempting to retrieve via Autosys utilities...").

Definition not_available (upper : string) : event :=
  Print (nl ++ upper ++ " LOG: Not available").

(** The four lines at the head of the report. *)
Definition report_header (job_name : string) (status last_run : option string)
  : list event :=
  [Print (nl ++ str_times "=" 80);
   Print ("Job Name: " ++ job_name);
   Print ("Status: " ++ str_opt status);
   Print ("Last Run: " ++ str_opt last_run);
   Print (str_times "=" 80 ++ nl)].

(** What the fallback of the plain script leaves in the run: the
    command, whose output goes to the terminal by itself, and the error
    when it fails. *)
Definition plain_fallback (w : world) (lower : string) (cmd : list string)
  : list event :=
  direct_access_failed lower :: Exec cmd false ::
  match run_argv w cmd with
  | Ran c =>
      if Z.eqb (returncode c) 0 then []
      else [PrintExc ("Error accessing " ++ lower ++ " log: ")
              (CalledProcessError cmd c)]
  | NotStarted msg =>
      [PrintExc ("Error accessing " ++ lower ++ " log: ") (OSError msg)]
  end.

(** What the fallback of the authenticated script leaves in the run. *)
Definition auth_fallback (w : world) (lower : string) (cmd : list string)
  : list event :=
  direct_access_failed lower :: Exec cmd true ::
  match run_argv w cmd with
  | Ran c =>
      if Z.eqb (returncode c) 0 then [Print (stdout c)]
      else [Print ("Error running autosyslog command. Exit code: "
                   ++ str_of_int (returncode c));
            Print ("Error message: " ++ stderr c)]
  | NotStarted msg =>
      [PrintExc ("Error accessing " ++ lower ++ " log: ") (OSError msg)]
  end.

(** The section of one stream, given what its fallback leaves. *)
Definition stream_section (w : world) (path : option string)
  (upper lower : string) (fallback : list event) : list event :=
  if otruthy path then
    stream_header upper (str_opt path)
    ++ (if path_exists w (str_opt path)
        then direct_read w lower (str_opt path)
        else fallback)
  else [not_available upper].

(** The run of [get_job_logs] of the plain script. *)
Definition plain_report (w : world) (jd : AutosysLogs.job_details) : list event :=
  Mkdtemp "autosys_logs_" ::
  report_header (AutosysLogs.job_name jd) (AutosysLogs.status jd)
                (AutosysLogs.last_run jd)
  ++ stream_section w (AutosysLogs.std_out_file jd) "STDOUT" "stdout"
       (plain_fallback w "stdout"
          ["autosyslog"; "-j"; AutosysLogs.job_name jd; "-o"])
  ++ stream_section w (AutosysLogs.std_err_file jd) "STDERR" "stderr"
       (plain_fallback w "stderr"
          ["autosyslog"; "-j"; AutosysLogs.job_name jd; "-e"])
  ++ [Rmtree (temp_dir w)].

(** The run of [get_job_logs] of the authenticated script. *)
Definition auth_report (w : world) (self : AutosysLogsAuth.AutosysLogRetriever)
  (jd : AutosysLogsAuth.job_details) : list event :=
  Mkdtemp "autosys_logs_" ::
  report_header (AutosysLogsAuth.job_name jd) (AutosysLogsAuth.status jd)
                (AutosysLogsAuth.last_run jd)
  ++ stream_section w (AutosysLogsAuth.std_out_file jd) "STDOUT" "stdout"
       (auth_fallback w "stdout"
          (AutosysLogsAuth.autosyslog_cmd self (AutosysLogsAuth.job_name jd) true))
  ++ stream_section w (AutosysLogsAuth.std_err_file jd) "STDERR" "stderr"
       (auth_fallback w "stderr"
          (AutosysLogsAuth.autosyslog_cmd self (AutosysLogsAuth.job_name jd) false))
  ++ [Rmtree (temp_dir w)].

(** The external commands among the events of a run, in order. *)
Fixpoint commands (t : list event) : list (list string) :=
  match t with
  | Exec cmd _ :: t' => cmd :: commands t'
  | _ :: t' => commands t'
  | [] => []
  end.

(** The shell command lines among the events of a run, in order. *)
Fixpoint shell_commands (t : list event) : list string :=
  match t with
  | ExecShell cmd :: t' => cmd :: shell_commands t'
  | _ :: t' => shell_commands t'
  | [] => []
  end.

(** What a run writes to standard output, in order. *)
Definition printed (t : list event) : list event := filter is_print t.

(** The record [get_job_details] fills from the report [output]. *)
Definition plain_details (name output : string) : AutosysLogs.job_details :=
  AutosysLogs.JobDetails name
    (Labelled.first_group AutosysLogs.status_re output)
    (Labelled.first_group AutosysLogs.last_run_re output)
    (Labelled.resolved_path "std_out_file" ".out" name output)
    (Labelled.resolved_path "std_err_file" ".err" name output).

Definition auth_details (name output : string) : AutosysLogsAuth.job_details :=
  AutosysLogsAuth.JobDetails name
    (Labelled.first_group AutosysLogsAuth.STATUS_PATTERN output)
    (Labelled.first_group AutosysLogsAuth.LAST_RUN_PATTERN output)
    (Labelled.resolved_path "std_out_file" ".out" name output)
    (Labelled.resolved_path "std_err_file" ".err" name output).

(** The retriever [main] of the authenticated script builds after the
    prompts. *)
Definition final_retriever (parsed : AutosysLogsAuth.namespace) (w : world)
  : AutosysLogsAuth.AutosysLogRetriever :=
  AutosysLogsAuth.Retriever (AutosysLogsAuth.ns_username parsed)
    (final_password parsed w) (final_instance parsed w)
    (AutosysLogsAuth.ns_server parsed).

(** The job name [parse_arguments] settles on: the one of [-j/--job]
    when it is given and not empty, else the positional one. *)
Definition chosen_job_name (parsed : AutosysLogsAuth.namespace) : option string :=
  if otruthy (AutosysLogsAuth.ns_job_name parsed)
  then AutosysLogsAuth.ns_job_name parsed
  else AutosysLogsAuth.ns_job_name_positional parsed.


End Present.

(** * Facts *)

Import PyStr Re Sys Labelled Observe Samples.

(** ** Strings *)

Lemma is_space_newline : is_space newline = true.
Proof. reflexivity. Qed.

Lemma not_space_not_newline (c : ascii) :
  is_space c = false -> Ascii.eqb c newline = false.
Proof.
  intros H. destruct (Ascii.eqb_spec c newline) as [->|]; [|reflexivity].
  rewrite is_space_newline in H. discriminate.
Qed.

Lemma not_space_is_dot (c : ascii) : is_space c = false -> is_dot c = true.
Proof.
  intros H. unfold is_dot, code.
  destruct (Nat.eqb_spec (nat_of_ascii c) 10) as [E|]; [|reflexivity].
  assert (c = newline) as ->.
  { rewrite <- (ascii_nat_embedding c), E. reflexivity. }
  rewrite is_space_newline in H. discriminate.
Qed.

Lemma length_after_token (s : string) :
  String.length (after_token s) <= String.length s.
Proof.
  induction s as [|c s IH]; simpl; [lia|].
  destruct (is_space c); simpl; lia.
Qed.

Lemma substring_zero (s : string) : substring 0 0 s = EmptyString.
Proof. destruct s; reflexivity. Qed.

Lemma consumed_token (s : string) : consumed s (after_token s) = token s.
Proof.
  unfold consumed. induction s as [|c s IH]; [reflexivity|].
  cbn [after_token token]. destruct (is_space c) eqn:E.
  - rewrite Nat.sub_diag. reflexivity.
  - pose proof (length_after_token s) as L.
    cbn [String.length].
    replace (S (String.length s) - String.length (after_token s))
      with (S (String.length s - String.length (after_token s))) by lia.
    cbn [substring]. rewrite IH. reflexivity.
Qed.

Lemma after_token_lstrip_head (s : string) :
  match lstrip s with
  | String c _ => is_space c = false
  | EmptyString => True
  end.
Proof.
  induction s as [|c s IH]; simpl; [exact I|].
  destruct (is_space c) eqn:E; [exact IH | exact E].
Qed.

Lemma token_no_space (s : string) : no_space (token s).
Proof.
  unfold no_space. induction s as [|c s IH]; simpl; [reflexivity|].
  destruct (is_space c) eqn:E; simpl; [reflexivity|].
  rewrite E. exact IH.
Qed.

Lemma no_space_no_newline (s : string) : no_space s -> no_newline s.
Proof.
  unfold no_space, no_newline. induction s as [|c s IH]; simpl; [auto|].
  intros H. apply andb_true_iff in H as [Hc Hs].
  apply negb_true_iff in Hc. rewrite (not_space_not_newline _ Hc). simpl. auto.
Qed.

(** ** The matcher on the label patterns *)

Lemma search_unfold (r : regex) (s : string) :
  search r s =
  match rmatch r accept s [] with
  | Some g => Some g
  | None =>
      match s with
      | String _ s' => search r s'
      | EmptyString => None
      end
  end.
Proof. destruct s; reflexivity. Qed.

Lemma star_greedy_accept (p : ascii -> bool) (s : string) (g : captures) :
  star_greedy p accept s g = Some g.
Proof.
  induction s as [|c s IH]; simpl; [reflexivity|].
  destruct (p c); [rewrite IH|]; reflexivity.
Qed.

(** A greedy [\s*] hands over at the first character that is no
    whitespace, when the rest of the pattern matches there. *)
Lemma star_greedy_lstrip (k : cont) (s : string) (g : captures) :
  k (lstrip s) g <> None ->
  star_greedy is_space k s g = k (lstrip s) g.
Proof.
  induction s as [|c s IH]; simpl; intros H; [reflexivity|].
  destruct (is_space c) eqn:E; [|reflexivity].
  rewrite (IH H). destruct (k (lstrip s) g); [reflexivity|contradiction].
Qed.

(** A lazy [.*?] stops at the end of the token, when the rest of the
    pattern fails before every character that is no whitespace and
    matches after the token. *)
Lemma star_lazy_token (k : cont) (g : captures) :
  (forall c s, is_space c = false -> k (String c s) g = None) ->
  forall s, k (after_token s) g <> None ->
  star_lazy is_dot k s g = k (after_token s) g.
Proof.
  intros Hfail s. induction s as [|c s IH]; simpl; intros H.
  - destruct (k EmptyString g); [reflexivity|contradiction].
  - destruct (is_space c) eqn:E.
    + destruct (k (String c s) g); [reflexivity|contradiction].
    + rewrite (Hfail c s E), (not_space_is_dot c E). exact (IH H).
Qed.

Lemma after_token_fix (s : string) : after_token (after_token s) = after_token s.
Proof.
  induction s as [|c s IH]; simpl; [reflexivity|].
  destruct (is_space c) eqn:E; [simpl; rewrite E; reflexivity | exact IH].
Qed.

Lemma terminator_field : terminator (Alt (Cls Plus CSpace) Eos).
Proof.
  split.
  - intros c s g E. simpl. rewrite E.
    destruct s; [rewrite (not_space_not_newline c E)|]; reflexivity.
  - intros s g Hs. destruct s as [|c s]; simpl.
    + exists g. split; reflexivity.
    + simpl in Hs. destruct (is_space c) eqn:E.
      * rewrite star_greedy_accept. exists g. split; reflexivity.
      * exfalso. pose proof (length_after_token s) as L.
        rewrite Hs in L. simpl in L. lia.
Qed.

Lemma terminator_attr : terminator (Group 2 (Alt (Cls Once CSpace) Eos)).
Proof.
  split.
  - intros c s g E. simpl. rewrite E.
    destruct s; [rewrite (not_space_not_newline c E)|]; reflexivity.
  - intros s g Hs. destruct s as [|c s]; simpl.
    + eexists. split; reflexivity.
    + simpl in Hs. destruct (is_space c) eqn:E.
      * eexists. split; reflexivity.
      * exfalso. pose proof (length_after_token s) as L.
        rewrite Hs in L. simpl in L. lia.
Qed.

(** The pattern [<lit>\s*(.*?)<t>] anchored at the start of [s]. *)
Lemma rmatch_labelled (lit : string) (t : regex) (s : string) :
  terminator t ->
  match strip_prefix lit s with
  | Some rest =>
      exists g, rmatch (Seq (Lit lit) (Seq (Cls Star CSpace)
                  (Seq (Group 1 (Cls LazyStar CDot)) t))) accept s [] = Some g
                /\ group 1 g = Some (token (lstrip rest))
  | None =>
      rmatch (Seq (Lit lit) (Seq (Cls Star CSpace)
                  (Seq (Group 1 (Cls LazyStar CDot)) t))) accept s [] = None
  end.
Proof.
  intros [Hfail Hok]. simpl. destruct (strip_prefix lit s) as [rest|]; [|reflexivity].
  set (k1 := fun (s' : string) (g' : captures) =>
               star_lazy is_dot
                 (fun s'' g'' => rmatch t accept s'' ((1, consumed s' s'') :: g''))
                 s' g').
  assert (Hk1 : forall u, exists g,
             k1 u [] = Some g /\ group 1 g = Some (token u)).
  { intros u. unfold k1.
    destruct (Hok (after_token u) [(1, consumed u (after_token u))]
                (after_token_fix u)) as [g [Hg Hg1]].
    exists g. rewrite star_lazy_token.
    - split; [exact Hg|]. rewrite Hg1. simpl. rewrite consumed_token. reflexivity.
    - intros c s0 E. apply Hfail. exact E.
    - rewrite Hg. discriminate. }
  destruct (Hk1 (lstrip rest)) as [g [Hg Hg1]].
  exists g. split; [|exact Hg1].
  rewrite star_greedy_lstrip; [exact Hg|]. fold k1. rewrite Hg. discriminate.
Qed.

(** [re.search] with a label pattern finds the value after the first
    occurrence of the label. *)
Lemma search_labelled (lit : string) (t : regex) (s : string) :
  terminator t ->
  search_group1 (Seq (Lit lit) (Seq (Cls Star CSpace)
                   (Seq (Group 1 (Cls LazyStar CDot)) t))) s
  = option_map (fun rest => Some (token (lstrip rest))) (find_after lit s).
Proof.
  intros Ht. unfold search_group1.
  induction s as [|c s IH].
  - rewrite search_unfold. pose proof (rmatch_labelled lit t EmptyString Ht) as H.
    simpl find_after. destruct (strip_prefix lit EmptyString) as [rest|].
    + destruct H as [g [-> Hg]]. simpl. rewrite Hg. reflexivity.
    + rewrite H. reflexivity.
  - rewrite search_unfold. pose proof (rmatch_labelled lit t (String c s) Ht) as H.
    simpl find_after. destruct (strip_prefix lit (String c s)) as [rest|].
    + destruct H as [g [-> Hg]]. simpl. rewrite Hg. reflexivity.
    + rewrite H. exact IH.
Qed.

Lemma search_field_pattern (label text : string) :
  search_group1 (field_pattern label) text
  = option_map Some (value_after label text).
Proof.
  unfold field_pattern, value_after.
  rewrite (search_labelled _ _ _ terminator_field).
  destruct (find_after (label ++ ":") text); reflexivity.
Qed.

Lemma search_attr_pattern (attr text : string) :
  search_group1 (attr_pattern attr) text
  = option_map Some (value_after attr text).
Proof.
  unfold attr_pattern, value_after.
  rewrite (search_labelled _ _ _ terminator_attr).
  destruct (find_after (attr ++ ":") text); reflexivity.
Qed.

Lemma search_field_cases (label text : string) :
  match search (field_pattern label) text with
  | Some m => exists v, group 1 m = Some v /\ value_after label text = Some v
  | None => value_after label text = None
  end.
Proof.
  pose proof (search_field_pattern label text) as H. unfold search_group1 in H.
  destruct (search (field_pattern label) text) as [m|];
    destruct (value_after label text) as [v|]; simpl in H; try discriminate.
  - exists v. split; [congruence|reflexivity].
  - reflexivity.
Qed.

Lemma lstrip_no_space (s : string) : no_space s -> lstrip s = s.
Proof.
  unfold no_space. destruct s as [|c s]; simpl; [reflexivity|].
  intros H. apply andb_true_iff in H as [Hc _].
  apply negb_true_iff in Hc. rewrite Hc. reflexivity.
Qed.

Lemma rstrip_no_space (s : string) : no_space s -> rstrip s = s.
Proof.
  unfold no_space. induction s as [|c s IH]; simpl; [reflexivity|].
  intros H. apply andb_true_iff in H as [Hc Hs].
  apply negb_true_iff in Hc. rewrite (IH Hs), Hc.
  destruct s; reflexivity.
Qed.

Lemma strip_no_space (s : string) : no_space s -> strip s = s.
Proof.
  intros H. unfold strip. rewrite (lstrip_no_space s H). apply rstrip_no_space, H.
Qed.

Lemma strip_token (s : string) : strip (token s) = token s.
Proof. apply strip_no_space, token_no_space. Qed.

Lemma value_after_no_space (label text v : string) :
  value_after label text = Some v -> no_space v.
Proof.
  unfold value_after. destruct (find_after (label ++ ":") text); simpl; [|discriminate].
  intros [= <-]. apply token_no_space.
Qed.

Lemma value_after_strip (label text v : string) :
  value_after label text = Some v -> strip v = v.
Proof. intros H. apply strip_no_space, (value_after_no_space _ _ _ H). Qed.

(** The value a label pattern captures holds no whitespace, so no line
    break; it is the token after the label wherever that token stands. *)
Lemma label_value_has_no_whitespace (label text v : string) :
  search_group1 (field_pattern label) text = Some (Some v) ->
  no_space v /\ no_newline v.
Proof.
  rewrite search_field_pattern. intros H.
  destruct (value_after label text) as [u|] eqn:E; [|discriminate].
  injection H as <-. pose proof (value_after_no_space _ _ _ E) as Hu.
  split; [exact Hu | apply no_space_no_newline, Hu].
Qed.

(** ** The extractor as a function of the report text *)

Ltac split_matches :=
  repeat match goal with
  | H : exists _, _ |- _ => destruct H as [? [? ?]]
  end;
  repeat match goal with
  | H : value_after _ _ = _ |- _ => rewrite H
  end;
  repeat match goal with
  | H : group 1 _ = Some _ |- _ => rewrite H
  end.

Ltac split_truth :=
  cbn [otruthy option_map];
  repeat match goal with
  | |- context [truthy ?v] => destruct (truthy v) eqn:?
  end.

Ltac use_truth :=
  repeat match goal with
  | H : value_after _ _ = Some ?v |- context [strip ?v] =>
      rewrite (value_after_strip _ _ _ H)
  | H : truthy _ = _ |- _ => rewrite H
  end.

Lemma fill_job_details_basic (name output : string) (w : world) :
  AutosysLogs.fill_job_details name output w =
  ([], Ok (AutosysLogs.JobDetails name
             (first_group AutosysLogs.status_re output)
             (first_group AutosysLogs.last_run_re output)
             (resolved_path "std_out_file" ".out" name output)
             (resolved_path "std_err_file" ".err" name output))).
Proof.
  unfold AutosysLogs.fill_job_details, resolved_path, first_group, explicit_value,
    AutosysLogs.std_out_file_re, AutosysLogs.std_err_file_re, AutosysLogs.job_dir_re.
  pose proof (search_field_cases "std_out_file" output) as Ho.
  pose proof (search_field_cases "std_err_file" output) as He.
  pose proof (search_field_cases "job_dir" output) as Hd.
  destruct (search AutosysLogs.status_re output) as [ms|];
  destruct (search AutosysLogs.last_run_re output) as [ml|];
  destruct (search (field_pattern "std_out_file") output) as [mo|];
  destruct (search (field_pattern "std_err_file") output) as [me|];
  destruct (search (field_pattern "job_dir") output) as [md|];
  split_matches; split_truth;
  cbn -[os_path_join]; use_truth; try reflexivity;
  unfold group_str; split_matches; reflexivity.
Qed.

Lemma fill_job_details_auth (name output : string) (w : world) :
  AutosysLogsAuth.fill_job_details name output w =
  ([], Ok (AutosysLogsAuth.JobDetails name
             (first_group AutosysLogsAuth.STATUS_PATTERN output)
             (first_group AutosysLogsAuth.LAST_RUN_PATTERN output)
             (resolved_path "std_out_file" ".out" name output)
             (resolved_path "std_err_file" ".err" name output))).
Proof.
  unfold AutosysLogsAuth.fill_job_details, resolved_path, first_group,
    explicit_value, AutosysLogsAuth.group1_strip,
    AutosysLogsAuth.STD_OUT_FILE_PATTERN, AutosysLogsAuth.STD_ERR_FILE_PATTERN,
    AutosysLogsAuth.JOB_DIR_PATTERN.
  pose proof (search_field_cases "std_out_file" output) as Ho.
  pose proof (search_field_cases "std_err_file" output) as He.
  pose proof (search_field_cases "job_dir" output) as Hd.
  destruct (search AutosysLogsAuth.STATUS_PATTERN output) as [ms|];
  destruct (search AutosysLogsAuth.LAST_RUN_PATTERN output) as [ml|];
  destruct (search (field_pattern "std_out_file") output) as [mo|];
  destruct (search (field_pattern "std_err_file") output) as [me|];
  destruct (search (field_pattern "job_dir") output) as [md|];
  split_matches; split_truth;
  cbn -[os_path_join strip]; use_truth; try reflexivity;
  unfold group_str; split_matches; cbn -[os_path_join strip];
  use_truth; reflexivity.
Qed.

(** ** Running the job-detail command *)

Lemma basic_get_job_details_ok (name : string) (w : world) (c : completed) :
  run_argv w ["autorep"; "-j"; name; "-L"] = Ran c ->
  returncode c = 0%Z ->
  AutosysLogs.get_job_details name w =
  ([Exec ["autorep"; "-j"; name; "-L"] true],
   Ok (AutosysLogs.JobDetails name
         (first_group AutosysLogs.status_re (stdout c))
         (first_group AutosysLogs.last_run_re (stdout c))
         (resolved_path "std_out_file" ".out" name (stdout c))
         (resolved_path "std_err_file" ".err" name (stdout c)))).
Proof.
  intros Hrun Hrc.
  cbv [AutosysLogs.get_job_details try_except bind subprocess_run emit ask].
  rewrite Hrun, Hrc. cbv [Z.eqb ret].
  rewrite fill_job_details_basic. reflexivity.
Qed.

Lemma auth_get_job_details_ok (self : AutosysLogsAuth.AutosysLogRetriever)
  (name : string) (w : world) (c : completed) :
  run_argv w (AutosysLogsAuth.autorep_cmd self name) = Ran c ->
  returncode c = 0%Z ->
  AutosysLogsAuth.get_job_details self name w =
  ([Exec (AutosysLogsAuth.autorep_cmd self name) true],
   Ok (AutosysLogsAuth.JobDetails name
         (first_group AutosysLogsAuth.STATUS_PATTERN (stdout c))
         (first_group AutosysLogsAuth.LAST_RUN_PATTERN (stdout c))
         (resolved_path "std_out_file" ".out" name (stdout c))
         (resolved_path "std_err_file" ".err" name (stdout c)))).
Proof.
  intros Hrun Hrc.
  cbv [AutosysLogsAuth.get_job_details try_except bind subprocess_run emit ask].
  rewrite Hrun, Hrc. cbv [Z.eqb ret].
  rewrite fill_job_details_auth. reflexivity.
Qed.

Lemma resolved_path_derived (label ext name text d : string) :
  explicit_value label text = None ->
  explicit_value "job_dir" text = Some d ->
  resolved_path label ext name text = Some (os_path_join d (name ++ ext)).
Proof.
  unfold resolved_path, explicit_value. intros -> Hd.
  destruct (value_after "job_dir" text) as [v|]; [|discriminate].
  destruct (truthy v); [|discriminate]. injection Hd as ->. reflexivity.
Qed.

(** C3. The claim fails on the code.  In a report with [std_out_file:]
    and [std_err_file:] each alone on its line, followed by the line
    [job_dir: /a/b], the job directory has a value and neither file has
    one, so that the claim gives [/a/b/job1.out] and [/a/b/job1.err].
    The [\s*] after a label also takes the line break: [get_job_details]
    returns the label of the next line as the value of each file
    ([std_err_file:] and [job_dir:]) and derives nothing from the job
    directory, in the plain and in the authenticated script.  Without the
    two blank labels the same report gives the derived paths. *)
Theorem blank_file_label_blocks_derivation :
  let output := "std_out_file:" ++ nl ++ "std_err_file:" ++ nl
                ++ "job_dir: /a/b" ++ nl in
  let w := sample_world (succeeds output) (fun _ => breaks) [] EmptyString in
  let w' := sample_world (succeeds ("job_dir: /a/b" ++ nl)) (fun _ => breaks)
              [] EmptyString in
  search_group1 (field_pattern "job_dir") output = Some (Some "/a/b") /\
  AutosysLogs.get_job_details "job1" w =
    ([Exec ["autorep"; "-j"; "job1"; "-L"] true],
     Ok (AutosysLogs.JobDetails "job1" None None
           (Some "std_err_file:") (Some "job_dir:"))) /\
  AutosysLogsAuth.get_job_details
    (AutosysLogsAuth.Retriever None None None None) "job1" w =
    ([Exec ["autorep"; "-j"; "job1"; "-L"] true],
     Ok (AutosysLogsAuth.JobDetails "job1" None None
           (Some "std_err_file:") (Some "job_dir:"))) /\
  AutosysLogs.get_job_details "job1" w' =
    ([Exec ["autorep"; "-j"; "job1"; "-L"] true],
     Ok (AutosysLogs.JobDetails "job1" None None
           (Some "/a/b/job1.out") (Some "/a/b/job1.err"))).
Proof. vm_compute. repeat split. Qed.

(** C1. The claim fails on the code: an empty capture after [job_dir:]
    is used as the directory, so that the two paths become the bare file
    names, and an empty capture after a metadata attribute is stored as
    the empty string.  (The guard on [group(1)] is there for
    [std_out_file] and [std_err_file] only.) *)
Theorem empty_capture_is_used :
  let output := "job_dir:" ++ nl in
  let w := sample_world (succeeds output) (fun _ => breaks) [] EmptyString in
  search_group1 (field_pattern "job_dir") output = Some (Some EmptyString) /\
  AutosysLogs.get_job_details "job1" w =
    ([Exec ["autorep"; "-j"; "job1"; "-L"] true],
     Ok (AutosysLogs.JobDetails "job1" None None
           (Some "job1.out") (Some "job1.err"))) /\
  AutosysLogsAuth.get_job_details
    (AutosysLogsAuth.Retriever None None None None) "job1" w =
    ([Exec ["autorep"; "-j"; "job1"; "-L"] true],
     Ok (AutosysLogsAuth.JobDetails "job1" None None
           (Some "job1.out") (Some "job1.err"))) /\
  SystemLogs.extract_job_metadata (Some ("insert_job: job1" ++ nl ++ "machine:"))
  = [("machine", Some EmptyString)].
Proof. vm_compute. repeat split. Qed.

(** C4. The claim fails on the code: [\s*] after the label also takes
    line breaks, so the value of a label without value on its own line is
    taken from the next line, and the [\s+] inside the group of the
    last-run pattern lets the captured value span a line break. *)
Theorem capture_crosses_lines :
  let output := "Last Run: 04/09/2025" ++ nl ++ "10:30:00" ++ nl
                ++ "std_out_file:" ++ nl ++ "std_err_file: /tmp/e.err" in
  let w := sample_world (succeeds output) (fun _ => breaks) [] EmptyString in
  AutosysLogs.get_job_details "job1" w =
    ([Exec ["autorep"; "-j"; "job1"; "-L"] true],
     Ok (AutosysLogs.JobDetails "job1" None
           (Some ("04/09/2025" ++ nl ++ "10:30:00"))
           (Some "std_err_file:") (Some "/tmp/e.err"))) /\
  AutosysLogsAuth.get_job_details
    (AutosysLogsAuth.Retriever None None None None) "job1" w =
    ([Exec ["autorep"; "-j"; "job1"; "-L"] true],
     Ok (AutosysLogsAuth.JobDetails "job1" None
           (Some ("04/09/2025" ++ nl ++ "10:30:00"))
           (Some "std_err_file:") (Some "/tmp/e.err"))) /\
  SystemLogs.extract_job_metadata (Some ("machine:" ++ nl ++ "command: ls"))
  = [("machine", Some "command:"); ("command", Some "ls")].
Proof. vm_compute. repeat split. Qed.

(** ** Runs that avoid a kind of event *)

Section Avoids.
Context {A B : Type} (p : event -> bool).

Lemma avoids_ret (a : A) : avoids p (ret a).
Proof. intros w. reflexivity. Qed.

Lemma avoids_raise (e : exn) : avoids p (@raise A e).
Proof. intros w. reflexivity. Qed.

Lemma avoids_sys_exit (c : Z) : avoids p (@sys_exit A c).
Proof. intros w. reflexivity. Qed.

Lemma avoids_ask (f : world -> A) : avoids p (ask f).
Proof. intros w. reflexivity. Qed.

Lemma avoids_emit (e : event) : p e = false -> avoids p (emit e).
Proof. intros H w. simpl. rewrite H. reflexivity. Qed.

Lemma avoids_bind (m : M A) (f : A -> M B) :
  avoids p m -> (forall a, avoids p (f a)) -> avoids p (bind m f).
Proof.
  intros Hm Hf w. unfold bind. specialize (Hm w).
  destruct (m w) as [t [a|e|c]]; simpl in *; try exact Hm.
  specialize (Hf a w). destruct (f a w) as [t' r]. simpl in *.
  rewrite existsb_app, Hm, Hf. reflexivity.
Qed.

Lemma avoids_try_except (m : M A) (h : exn -> M A) :
  avoids p m -> (forall e, avoids p (h e)) -> avoids p (try_except m h).
Proof.
  intros Hm Hh w. unfold try_except. specialize (Hm w).
  destruct (m w) as [t [a|e|c]]; simpl in *; try exact Hm.
  specialize (Hh e w). destruct (h e w) as [t' r]. simpl in *.
  rewrite existsb_app, Hm, Hh. reflexivity.
Qed.

Lemma avoids_try_finally (m : M A) (f : M unit) :
  avoids p m -> avoids p f -> avoids p (try_finally m f).
Proof.
  intros Hm Hf w. unfold try_finally. specialize (Hm w). specialize (Hf w).
  destruct (m w) as [t r]. destruct (f w) as [t' r']. simpl in *.
  rewrite existsb_app, Hm, Hf. reflexivity.
Qed.

End Avoids.

Ltac avoid_step :=
  first
    [ apply avoids_ret | apply avoids_raise | apply avoids_sys_exit
    | apply avoids_ask
    | apply avoids_emit; reflexivity
    | apply avoids_bind; [|intros ?]
    | apply avoids_try_except; [|intros ?]
    | apply avoids_try_finally
    | match goal with
      | |- avoids _ (if ?b then _ else _) => destruct b
      | |- avoids _ (match ?x with _ => _ end) => destruct x
      end ].

Ltac avoid := repeat avoid_step.

Lemma avoids_subprocess_run (p : event -> bool) (cmd : list string) (b : bool) :
  p (Exec cmd b) = false -> avoids p (subprocess_run cmd b).
Proof.
  intros H. unfold subprocess_run. apply avoids_bind; [apply avoids_emit, H|].
  intros _. avoid.
Qed.

Lemma avoids_subprocess_run_shell (p : event -> bool) (cmd : string) :
  p (ExecShell cmd) = false -> avoids p (subprocess_run_shell cmd).
Proof.
  intros H. unfold subprocess_run_shell. apply avoids_bind; [apply avoids_emit, H|].
  intros _. avoid.
Qed.

Lemma basic_fill_avoids (p : event -> bool) (name output : string) :
  avoids p (AutosysLogs.fill_job_details name output).
Proof. intros w. rewrite fill_job_details_basic. reflexivity. Qed.

Lemma auth_fill_avoids (p : event -> bool) (name output : string) :
  avoids p (AutosysLogsAuth.fill_job_details name output).
Proof. intros w. rewrite fill_job_details_auth. reflexivity. Qed.

Lemma auth_get_job_details_no_prompt self name :
  avoids is_prompt (AutosysLogsAuth.get_job_details self name).
Proof.
  unfold AutosysLogsAuth.get_job_details, print, print_exc.
  apply avoids_try_except.
  - apply avoids_bind; [apply avoids_subprocess_run; reflexivity|].
    intros c. apply auth_fill_avoids.
  - intros e. avoid.
Qed.

Lemma auth_get_job_logs_no_prompt self jd :
  avoids is_prompt (AutosysLogsAuth.get_job_logs self jd).
Proof.
  unfold AutosysLogsAuth.get_job_logs, AutosysLogsAuth.show_stream,
    AutosysLogsAuth.retrieve_log_via_autosys, mkdtemp, rmtree, open_read,
    print, print_exc.
  repeat first [ apply avoids_subprocess_run; reflexivity | avoid_step ].
Qed.

(** ** Counting events *)

Lemma count_app (p : event -> bool) (t t' : list event) :
  count p (t ++ t') = count p t + count p t'.
Proof. unfold count. rewrite filter_app, length_app. reflexivity. Qed.

Lemma count_bind {A B} (p : event -> bool) (m : M A) (f : A -> M B) (w : world) :
  count p (fst (bind m f w)) =
  count p (fst (m w)) +
  match snd (m w) with
  | Ok a => count p (fst (f a w))
  | _ => 0
  end.
Proof.
  unfold bind. destruct (m w) as [t [a|e|c]]; simpl; try lia.
  destruct (f a w) as [t' r]. simpl. apply count_app.
Qed.

Lemma avoided_count (p q : event -> bool) (t : list event) :
  (forall e, q e = true -> p e = true) ->
  existsb p t = false -> count q t = 0.
Proof.
  intros Hpq. unfold count. induction t as [|e t IH]; simpl; [reflexivity|].
  intros H. apply orb_false_iff in H as [He Ht].
  destruct (q e) eqn:Eq; [rewrite (Hpq e Eq) in He; discriminate|]. exact (IH Ht).
Qed.

Lemma parse_arguments_ok (parsed args : AutosysLogsAuth.namespace)
  (w : world) (t : list event) :
  AutosysLogsAuth.parse_arguments parsed w = (t, Ok args) ->
  t = [] /\
  otruthy (AutosysLogsAuth.ns_job_name args) = true /\
  AutosysLogsAuth.ns_username args = AutosysLogsAuth.ns_username parsed /\
  AutosysLogsAuth.ns_password args = AutosysLogsAuth.ns_password parsed /\
  AutosysLogsAuth.ns_instance args = AutosysLogsAuth.ns_instance parsed /\
  AutosysLogsAuth.ns_server args = AutosysLogsAuth.ns_server parsed.
Proof.
  destruct parsed as [j u p i s jp].
  cbv [AutosysLogsAuth.parse_arguments AutosysLogsAuth.ns_job_name
       AutosysLogsAuth.ns_job_name_positional AutosysLogsAuth.ns_username
       AutosysLogsAuth.ns_password AutosysLogsAuth.ns_instance
       AutosysLogsAuth.ns_server].
  destruct (otruthy j) eqn:Ej; cbn [negb andb].
  - rewrite Ej. cbn. intros [= <- <-]. cbn. repeat split; assumption.
  - destruct (otruthy jp) eqn:Ejp; cbn [negb].
    + rewrite Ejp. cbn. intros [= <- <-]. cbn. repeat split; assumption.
    + rewrite Ej. cbn. discriminate.
Qed.


(** ** The authenticated script up to its last block *)

Lemma bind_ok {A B} (m : M A) (f : A -> M B) (w : world) (t : list event) (a : A) :
  m w = (t, Ok a) ->
  bind m f w = ((t ++ fst (f a w))%list, snd (f a w)).
Proof. intros H. unfold bind. rewrite H. destruct (f a w). reflexivity. Qed.

Lemma auth_main_unfold (parsed args : AutosysLogsAuth.namespace) (w : world) :
  AutosysLogsAuth.parse_arguments parsed w = ([], Ok args) ->
  AutosysLogsAuth.main parsed w =
  let r := AutosysLogsAuth.retrieve
             (AutosysLogsAuth.ns_username parsed)
             (final_password parsed w) (final_instance parsed w)
             (AutosysLogsAuth.ns_server parsed)
             (str_opt (AutosysLogsAuth.ns_job_name args)) w in
  ((banner (str_opt (AutosysLogsAuth.ns_job_name args))
    ++ prompt_events parsed ++ fst r)%list, snd r).
Proof.
  intros Hparse.
  destruct (parse_arguments_ok _ _ _ _ Hparse) as (_ & Hj & Hu & Hp & Hi & Hs).
  unfold AutosysLogsAuth.main. rewrite (bind_ok _ _ _ _ _ Hparse).
  rewrite Hu, Hp, Hi, Hs.
  unfold final_password, final_instance, prompt_events, asks_password,
    asks_instance, password_prompt, instance_prompt, banner.
  destruct (otruthy (AutosysLogsAuth.ns_username parsed));
    destruct (otruthy (AutosysLogsAuth.ns_password parsed));
    destruct (otruthy (AutosysLogsAuth.ns_instance parsed));
    cbv [bind print emit ask ret fst snd andb negb app];
    match goal with
    | |- context [AutosysLogsAuth.retrieve ?a ?b ?c ?d ?e w] =>
        destruct (AutosysLogsAuth.retrieve a b c d e w)
    end; reflexivity.
Qed.

Lemma auth_retrieve_no_prompt u p i s name :
  avoids is_prompt (AutosysLogsAuth.retrieve u p i s name).
Proof.
  unfold AutosysLogsAuth.retrieve. apply avoids_try_except.
  - apply avoids_bind; [apply auth_get_job_details_no_prompt|].
    intros jd. apply avoids_bind; [apply auth_get_job_logs_no_prompt|].
    intros _. apply avoids_ret.
  - intros e. unfold print_exc. avoid.
Qed.

Lemma auth_script_trace (parsed : AutosysLogsAuth.namespace) (w : world) :
  fst (AutosysLogsAuth.script parsed w) = fst (AutosysLogsAuth.main parsed w).
Proof.
  unfold AutosysLogsAuth.script, bind, sys_exit.
  destruct (AutosysLogsAuth.main parsed w) as [t [c|e|c]]; simpl;
    [apply app_nil_r | reflexivity | reflexivity].
Qed.

Lemma auth_script_count (q : event -> bool)
  (parsed args : AutosysLogsAuth.namespace) (w : world) (t0 : list event) :
  (forall e, q e = true -> is_prompt e = true) ->
  AutosysLogsAuth.parse_arguments parsed w = (t0, Ok args) ->
  count q (fst (AutosysLogsAuth.script parsed w)) = count q (prompt_events parsed).
Proof.
  intros Hq Hparse.
  destruct (parse_arguments_ok _ _ _ _ Hparse) as (-> & _).
  rewrite auth_script_trace, (auth_main_unfold _ _ _ Hparse). cbv zeta. cbn [fst].
  rewrite !count_app.
  rewrite (avoided_count is_prompt q _ Hq (auth_retrieve_no_prompt _ _ _ _ _ w)).
  assert (count q (banner (str_opt (AutosysLogsAuth.ns_job_name args))) = 0) as ->.
  { apply (avoided_count is_prompt q _ Hq). reflexivity. }
  lia.
Qed.

(** C7. In the authenticated script, for arguments that pass
    [parse_arguments]: the password is asked for (without echo, by
    [getpass]) exactly once when a user name is supplied without a
    password and never otherwise, so not when both are supplied; the
    instance is asked for (in plain text, by [input]) exactly once when a
    user name is supplied without an instance and never otherwise; without
    a user name nothing is asked.  Supplied means, as in the script's own
    test, given and not empty. *)
Theorem prompts_follow_arguments (parsed args : AutosysLogsAuth.namespace)
  (w : world) (t0 : list event) :
  AutosysLogsAuth.parse_arguments parsed w = (t0, Ok args) ->
  let t := fst (AutosysLogsAuth.script parsed w) in
  let user := otruthy (AutosysLogsAuth.ns_username parsed) in
  let pass := otruthy (AutosysLogsAuth.ns_password parsed) in
  let inst := otruthy (AutosysLogsAuth.ns_instance parsed) in
  count is_getpass t = (if user && negb pass then 1 else 0) /\
  count is_input t = (if user && negb inst then 1 else 0) /\
  (user = false -> count is_prompt t = 0).
Proof.
  intros Hparse. cbv zeta.
  rewrite (auth_script_count is_getpass _ _ _ _
             ltac:(intros [] E; try discriminate E; reflexivity) Hparse).
  rewrite (auth_script_count is_input _ _ _ _
             ltac:(intros [] E; try discriminate E; reflexivity) Hparse).
  rewrite (auth_script_count is_prompt _ _ _ _ ltac:(auto) Hparse).
  unfold prompt_events, asks_password, asks_instance.
  destruct (otruthy (AutosysLogsAuth.ns_username parsed));
    destruct (otruthy (AutosysLogsAuth.ns_password parsed));
    destruct (otruthy (AutosysLogsAuth.ns_instance parsed));
    repeat split; intros; try discriminate; reflexivity.
Qed.

Lemma prompts_follow_arguments_witness :
  let parsed := AutosysLogsAuth.Namespace (Some "job1") (Some "alice")
                  None (Some "ACE") None None in
  let w := sample_world (succeeds EmptyString) (fun _ => breaks) [] "secret" in
  count is_getpass (fst (AutosysLogsAuth.script parsed w)) = 1 /\
  count is_input (fst (AutosysLogsAuth.script parsed w)) = 0.
Proof.
  pose proof (prompts_follow_arguments
    (AutosysLogsAuth.Namespace (Some "job1") (Some "alice") None (Some "ACE") None None)
    (AutosysLogsAuth.Namespace (Some "job1") (Some "alice") None (Some "ACE") None None)
    (sample_world (succeeds EmptyString) (fun _ => breaks) [] "secret") [] eq_refl) as H.
  cbv zeta in H. destruct H as (H1 & H2 & _). split; [exact H1 | exact H2].
Defined.

(** ** Credentials on the command lines *)

Lemma extend_if_flag (name : string) (value : option string) (cmd : list string) :
  AutosysLogsAuth.extend_if name value cmd = (cmd ++ flag name value)%list.
Proof.
  unfold AutosysLogsAuth.extend_if, flag.
  destruct value as [v|]; [destruct (truthy v)|]; try reflexivity;
    symmetry; apply app_nil_r.
Qed.

Lemma autorep_cmd_flags (self : AutosysLogsAuth.AutosysLogRetriever) (name : string) :
  AutosysLogsAuth.autorep_cmd self name =
  (["autorep"; "-j"; name; "-L"] ++ credential_flags self)%list.
Proof.
  unfold AutosysLogsAuth.autorep_cmd, credential_flags. cbv zeta.
  rewrite !extend_if_flag, <- !app_assoc. reflexivity.
Qed.

Lemma autosyslog_cmd_flags (self : AutosysLogsAuth.AutosysLogRetriever)
  (name : string) (is_stdout : bool) :
  AutosysLogsAuth.autosyslog_cmd self name is_stdout =
  (["autosyslog"; "-j"; name; if is_stdout then "-o" else "-e"]
     ++ credential_flags self)%list.
Proof.
  unfold AutosysLogsAuth.autosyslog_cmd, credential_flags. cbv zeta.
  rewrite !extend_if_flag, <- !app_assoc. reflexivity.
Qed.

(** C8. Whatever credentials are present, the command line of the
    job-detail query is [autorep -j <job> -L] followed by the credential
    flags, and the command line of the fallback log query is
    [autosyslog -j <job> -o|-e] followed by the same flags in the same
    order; a credential that is absent (or empty) adds nothing to either.
    These are the command lines the two methods execute. *)
Theorem credential_flags_agree (self : AutosysLogsAuth.AutosysLogRetriever)
  (job other : string) (is_stdout : bool) (w : world) :
  skipn 4 (AutosysLogsAuth.autorep_cmd self job) = credential_flags self /\
  skipn 4 (AutosysLogsAuth.autosyslog_cmd self other is_stdout)
    = credential_flags self /\
  firstn 4 (AutosysLogsAuth.autorep_cmd self job) = ["autorep"; "-j"; job; "-L"] /\
  firstn 4 (AutosysLogsAuth.autosyslog_cmd self other is_stdout)
    = ["autosyslog"; "-j"; other; if is_stdout then "-o" else "-e"] /\
  filter is_exec (fst (AutosysLogsAuth.get_job_details self job w))
    = [Exec (AutosysLogsAuth.autorep_cmd self job) true] /\
  filter is_exec (fst (AutosysLogsAuth.retrieve_log_via_autosys self other is_stdout w))
    = [Exec (AutosysLogsAuth.autosyslog_cmd self other is_stdout) true].
Proof.
  rewrite autorep_cmd_flags, autosyslog_cmd_flags.
  repeat split; try reflexivity.
  - rewrite <- autorep_cmd_flags.
    unfold AutosysLogsAuth.get_job_details.
    cbv [try_except bind subprocess_run emit ask].
    destruct (run_argv w (AutosysLogsAuth.autorep_cmd self job)) as [c|msg].
    + destruct (Z.eqb (returncode c) 0).
      * cbv [ret]. rewrite fill_job_details_auth. reflexivity.
      * reflexivity.
    + reflexivity.
  - rewrite <- autosyslog_cmd_flags.
    unfold AutosysLogsAuth.retrieve_log_via_autosys.
    cbv [try_except bind subprocess_run emit ask].
    destruct (run_argv w (AutosysLogsAuth.autosyslog_cmd self other is_stdout))
      as [c|msg].
    + destruct (Z.eqb (returncode c) 0); reflexivity.
    + reflexivity.
Qed.

(** ** [strip] *)

Lemma lstrip_split (s : string) :
  exists l, s = l ++ lstrip s /\ all_chars is_space l = true.
Proof.
  induction s as [|c s [l [Hl Hs]]]; simpl.
  - exists EmptyString. split; reflexivity.
  - destruct (is_space c) eqn:E.
    + exists (String c l). simpl. rewrite E, <- Hl. split; [reflexivity|exact Hs].
    + exists EmptyString. split; reflexivity.
Qed.

Lemma rstrip_split (s : string) :
  exists r, s = rstrip s ++ r /\ all_chars is_space r = true.
Proof.
  induction s as [|c s [r [Hr Hs]]]; simpl.
  - exists EmptyString. split; reflexivity.
  - destruct (rstrip s) as [|c' t] eqn:E.
    + destruct (is_space c) eqn:Ec.
      * simpl in Hr. subst r. exists (String c s). simpl. rewrite Ec.
        split; [reflexivity|exact Hs].
      * simpl in Hr. subst r. exists s. split; [reflexivity|exact Hs].
    + exists r. simpl in *. rewrite <- Hr. split; [reflexivity|exact Hs].
Qed.

Lemma rstrip_last (s : string) :
  match last_char (rstrip s) with
  | Some c => is_space c = false
  | None => True
  end.
Proof.
  induction s as [|c s IH]; simpl; [exact I|].
  destruct (rstrip s) as [|c' t] eqn:E.
  - destruct (is_space c) eqn:Ec; simpl; [exact I | exact Ec].
  - exact IH.
Qed.

Lemma rstrip_head (s : string) :
  match s with
  | String c _ => is_space c = false
  | EmptyString => True
  end ->
  match rstrip s with
  | String c _ => is_space c = false
  | EmptyString => True
  end.
Proof.
  destruct s as [|c s]; simpl; [auto|].
  intros H. destruct (rstrip s); [rewrite H|]; exact H.
Qed.

Lemma append_assoc (a b c : string) : (a ++ b) ++ c = a ++ b ++ c.
Proof. induction a as [|x a IH]; simpl; [reflexivity | rewrite IH; reflexivity]. Qed.

(** [strip] removes whitespace, and only whitespace, from both ends. *)
Lemma strip_spec (s : string) :
  (exists l r, s = l ++ strip s ++ r
               /\ all_chars is_space l = true /\ all_chars is_space r = true)
  /\ is_stripped (strip s).
Proof.
  unfold strip. split.
  - destruct (lstrip_split s) as [l [Hl Hls]].
    destruct (rstrip_split (lstrip s)) as [r [Hr Hrs]].
    exists l, r. rewrite <- Hr, <- Hl. auto.
  - split; [apply rstrip_head, after_token_lstrip_head | apply rstrip_last].
Qed.

(** ** The summarizers *)

Lemma minimal_run_command_spec (cmd : string) (w : world) :
  MinimalSystemLogs.run_command cmd w =
  let c := run_shell w cmd in
  if Z.eqb (returncode c) 0
  then ([ExecShell cmd], Ok (Some (strip (stdout c))))
  else ([ExecShell cmd; Print ("Error running command: " ++ cmd);
         Print ("Error message: " ++ strip (stderr c))], Ok None).
Proof.
  cbv [MinimalSystemLogs.run_command try_except bind subprocess_run_shell
       emit ask print].
  destruct (Z.eqb (returncode (run_shell w cmd)) 0); reflexivity.
Qed.

Lemma system_run_command_spec (cmd : string) (w : world) :
  SystemLogs.run_command cmd w =
  let c := run_shell w cmd in
  if Z.eqb (returncode c) 0
  then ([ExecShell cmd], Ok (Some (strip (stdout c))))
  else ([ExecShell cmd; PrintErr ("Error running command: " ++ cmd);
         PrintErr ("Error message: " ++ strip (stderr c))], Ok None).
Proof.
  cbv [SystemLogs.run_command try_except bind subprocess_run_shell
       emit ask print_err].
  destruct (Z.eqb (returncode (run_shell w cmd)) 0); reflexivity.
Qed.

Lemma minimal_run_command_pair (cmd : string) (w : world) :
  MinimalSystemLogs.run_command cmd w =
  (command_events Print w cmd, Ok (shell_result w cmd)).
Proof.
  rewrite minimal_run_command_spec. unfold command_events, shell_result. cbv zeta.
  destruct (Z.eqb (returncode (run_shell w cmd)) 0); reflexivity.
Qed.

Lemma system_run_command_pair (cmd : string) (w : world) :
  SystemLogs.run_command cmd w =
  (command_events PrintErr w cmd, Ok (shell_result w cmd)).
Proof.
  rewrite system_run_command_spec. unfold command_events, shell_result. cbv zeta.
  destruct (Z.eqb (returncode (run_shell w cmd)) 0); reflexivity.
Qed.

Lemma minimal_get_system_logs_spec (job : string) (run : option Z) (w : world) :
  MinimalSystemLogs.get_system_logs job run w =
  (command_events Print w (syslog_command job run),
   Ok [("job_name", JStr job);
       ("run_number", MinimalSystemLogs.json_of_opt_int run);
       ("system_logs",
        MinimalSystemLogs.json_of_opt_str (shell_result w (syslog_command job run)))]).
Proof.
  unfold MinimalSystemLogs.get_system_logs. cbv zeta.
  rewrite (bind_ok _ _ _ _ _ (minimal_run_command_pair _ w)).
  unfold syslog_command. cbn [ret fst snd]. rewrite app_nil_r. reflexivity.
Qed.

Lemma system_get_system_logs_spec (job : string) (run : option Z) (w : world) :
  SystemLogs.get_system_logs job run w =
  ((command_events PrintErr w (info_command job)
    ++ command_events PrintErr w (syslog_command job run)
    ++ command_events PrintErr w (details_command job run)
    ++ command_events PrintErr w (status_command job))%list,
   Ok (SystemLogs.LogsData
         (shell_result w (info_command job))
         (shell_result w (syslog_command job run))
         (shell_result w (details_command job run))
         (shell_result w (status_command job)))).
Proof.
  cbv [SystemLogs.get_system_logs syslog_command details_command bind].
  rewrite system_run_command_pair.
  destruct (SystemLogs.int_truthy run);
    rewrite !system_run_command_pair; cbn [ret fst snd];
    rewrite !app_nil_r, <- ?app_assoc; reflexivity.
Qed.

Lemma minimal_main_spec (a : MinimalSystemLogs.args) (w : world) :
  MinimalSystemLogs.main a w =
  ((command_events Print w
      (syslog_command (MinimalSystemLogs.job a) (MinimalSystemLogs.run a))
    ++ [PrintJson (if MinimalSystemLogs.pretty a then Some 2 else None)
          [("job_name", JStr (MinimalSystemLogs.job a));
           ("run_number", MinimalSystemLogs.json_of_opt_int (MinimalSystemLogs.run a));
           ("system_logs",
            MinimalSystemLogs.json_of_opt_str
              (shell_result w (syslog_command (MinimalSystemLogs.job a)
                                              (MinimalSystemLogs.run a))))]])%list,
   Ok tt).
Proof.
  cbv [MinimalSystemLogs.main bind]. rewrite minimal_get_system_logs_spec.
  destruct (MinimalSystemLogs.pretty a); reflexivity.
Qed.

(** The document [main] of [autosys-system-logs.py] builds. *)
Lemma system_main_json (a : SystemLogs.args) (w : world) :
  SystemLogs.format a = "json" ->
  SystemLogs.main a w =
  ((fst (SystemLogs.get_system_logs (SystemLogs.job a) (SystemLogs.run a) w)
    ++ [PrintJson (Some 2)
          [("job_name", JStr (SystemLogs.job a));
           ("run_number", SystemLogs.json_of_opt_int (SystemLogs.run a));
           ("timestamp", JStr (now_isoformat w));
           ("metadata",
            JDict (SystemLogs.extract_job_metadata
                     (shell_result w (info_command (SystemLogs.job a)))));
           ("system_logs",
            SystemLogs.json_of_opt_str
              (shell_result w (syslog_command (SystemLogs.job a) (SystemLogs.run a))));
           ("run_details",
            SystemLogs.json_of_opt_str
              (shell_result w (details_command (SystemLogs.job a) (SystemLogs.run a))));
           ("status_history",
            SystemLogs.json_of_opt_str
              (shell_result w (status_command (SystemLogs.job a))))]])%list,
   Ok tt).
Proof.
  intros Hf. cbv [SystemLogs.main bind]. rewrite system_get_system_logs_spec, Hf.
  reflexivity.
Qed.

Lemma print_items_spec (m : SystemLogs.metadata_dict) (w : world) :
  SystemLogs.print_items m w =
  (map (fun kv => Print (fst kv ++ ": " ++ str_opt (snd kv))) m, Ok tt).
Proof.
  induction m as [|[k v] m IH]; [reflexivity|].
  cbn [SystemLogs.print_items map fst snd]. cbv [bind print emit].
  rewrite IH. reflexivity.
Qed.

Lemma system_main_text (a : SystemLogs.args) (w : world) :
  SystemLogs.format a <> "json" ->
  SystemLogs.main a w =
  ((fst (SystemLogs.get_system_logs (SystemLogs.job a) (SystemLogs.run a) w)
    ++ [Print ("=== AutoSys System Logs for Job: " ++ SystemLogs.job a ++ " ===");
        Print ("Run Number: "
               ++ (if SystemLogs.int_truthy (SystemLogs.run a)
                   then SystemLogs.str_opt_int (SystemLogs.run a) else "Latest"));
        Print ("Timestamp: " ++ now_isoformat w);
        Print (nl ++ "=== Job Metadata ===")]
    ++ map (fun kv => Print (fst kv ++ ": " ++ str_opt (snd kv)))
         (SystemLogs.extract_job_metadata
            (shell_result w (info_command (SystemLogs.job a))))
    ++ [Print (nl ++ "=== Run Details ===");
        Print (str_opt (shell_result w
                 (details_command (SystemLogs.job a) (SystemLogs.run a))));
        Print (nl ++ "=== Status History ===");
        Print (str_opt (shell_result w (status_command (SystemLogs.job a))));
        Print (nl ++ "=== System Logs ===");
        Print (str_opt (shell_result w
                 (syslog_command (SystemLogs.job a) (SystemLogs.run a))))])%list,
   Ok tt).
Proof.
  intros Hf. apply String.eqb_neq in Hf.
  cbv [SystemLogs.main bind]. rewrite system_get_system_logs_spec, Hf.
  cbv [ask print emit]. rewrite print_items_spec.
  cbn [fst snd SystemLogs.job_info SystemLogs.system_logs SystemLogs.run_details
       SystemLogs.status_history app].
  rewrite <- !app_assoc. reflexivity.
Qed.


Lemma command_events_quiet (w : world) (cmd : string) :
  existsb is_print (command_events PrintErr w cmd) = false.
Proof.
  unfold command_events. cbv zeta.
  destruct (Z.eqb (returncode (run_shell w cmd)) 0); reflexivity.
Qed.

Lemma system_get_system_logs_quiet (job : string) (run : option Z) (w : world) :
  existsb is_print (fst (SystemLogs.get_system_logs job run w)) = false.
Proof.
  rewrite system_get_system_logs_spec. cbn [fst].
  rewrite !existsb_app, !command_events_quiet. reflexivity.
Qed.

Lemma no_json_in (t : list event) (i : option nat) (doc : json) :
  existsb is_json t = false -> ~ In (PrintJson i doc) t.
Proof.
  intros H Hin. assert (existsb is_json t = true) as E.
  { apply existsb_exists. exists (PrintJson i doc). split; [exact Hin|reflexivity]. }
  rewrite E in H. discriminate.
Qed.

Lemma command_events_no_json (out : string -> event) (w : world) (cmd : string) :
  (forall s, is_json (out s) = false) ->
  existsb is_json (command_events out w cmd) = false.
Proof.
  intros Hout. unfold command_events. cbv zeta.
  destruct (Z.eqb (returncode (run_shell w cmd)) 0); simpl; rewrite ?Hout; reflexivity.
Qed.

Lemma system_get_system_logs_no_json (job : string) (run : option Z) (w : world) :
  existsb is_json (fst (SystemLogs.get_system_logs job run w)) = false.
Proof.
  rewrite system_get_system_logs_spec. cbn [fst].
  rewrite !existsb_app, !command_events_no_json by reflexivity. reflexivity.
Qed.

Lemma shell_result_stripped (w : world) (cmd : string) (v : jvalue) :
  v = MinimalSystemLogs.json_of_opt_str (shell_result w cmd) ->
  null_or_stripped (Some v).
Proof.
  intros ->. unfold shell_result, null_or_stripped. cbv zeta.
  destruct (Z.eqb (returncode (run_shell w cmd)) 0); simpl.
  - right. eexists. split; [reflexivity|]. apply strip_spec.
  - left. reflexivity.
Qed.







(** C10. In both summarizers, when the command exits with code 0
    [run_command] returns its standard output stripped: what is left
    after removing whitespace, and nothing else, from both ends, so that
    the result neither starts nor ends with whitespace.  Hence every text
    field of a JSON report ([system_logs], [run_details],
    [status_history]) is [None] or such a stripped string. *)
Theorem run_command_returns_stripped_output :
  (forall (cmd : string) (w : world),
     returncode (run_shell w cmd) = 0%Z ->
     MinimalSystemLogs.run_command cmd w =
       ([ExecShell cmd], Ok (Some (strip (stdout (run_shell w cmd)))))
     /\ SystemLogs.run_command cmd w =
       ([ExecShell cmd], Ok (Some (strip (stdout (run_shell w cmd))))))
  /\
  (forall s : string,
     (exists l r, s = l ++ strip s ++ r
                  /\ all_chars is_space l = true /\ all_chars is_space r = true)
     /\ is_stripped (strip s))
  /\
  (forall (a : MinimalSystemLogs.args) (w : world) (i : option nat) (doc : json),
     In (PrintJson i doc) (fst (MinimalSystemLogs.main a w)) ->
     null_or_stripped (lookup "system_logs" doc))
  /\
  (forall (a : SystemLogs.args) (w : world) (i : option nat) (doc : json),
     In (PrintJson i doc) (fst (SystemLogs.main a w)) ->
     null_or_stripped (lookup "system_logs" doc)
     /\ null_or_stripped (lookup "run_details" doc)
     /\ null_or_stripped (lookup "status_history" doc)).
Proof.
  split; [|split; [|split]].
  - intros cmd w H.
    rewrite minimal_run_command_spec, system_run_command_spec. cbv zeta.
    rewrite H. split; reflexivity.
  - apply strip_spec.
  - intros a w i doc. rewrite minimal_main_spec. cbn [fst]. intros Hin.
    apply in_app_or in Hin as [Hin|[Hin|[]]].
    + exfalso. revert Hin. apply no_json_in, command_events_no_json. reflexivity.
    + injection Hin as _ <-. cbn. eapply shell_result_stripped. reflexivity.
  - intros a w i doc.
    destruct (String.eqb_spec (SystemLogs.format a) "json") as [Hf|Hf].
    + rewrite (system_main_json a w Hf). cbn [fst]. intros Hin.
      apply in_app_or in Hin as [Hin|[Hin|[]]].
      * exfalso. revert Hin. apply no_json_in, system_get_system_logs_no_json.
      * injection Hin as _ <-. cbn.
        repeat split; eapply shell_result_stripped; reflexivity.
    + rewrite (system_main_text a w Hf). cbn [fst]. intros Hin. exfalso.
      revert Hin. apply no_json_in.
      rewrite !existsb_app, system_get_system_logs_no_json.
      cbn [existsb is_json orb].
      induction (SystemLogs.extract_job_metadata _) as [|kv m IH]; [reflexivity|exact IH].
Qed.

Lemma run_command_returns_stripped_output_witness :
  let w := sample_world breaks (fun _ => succeeds ("  log line " ++ nl)) [] EmptyString in
  SystemLogs.run_command "autosyslog -j job1" w =
    ([ExecShell "autosyslog -j job1"], Ok (Some "log line")).
Proof.
  exact (proj2 (proj1 run_command_returns_stripped_output "autosyslog -j job1"
                  (sample_world breaks (fun _ => succeeds ("  log line " ++ nl)) [] EmptyString)
                  eq_refl)).
Defined.

(** ** A failing job-detail query *)

Lemma basic_get_job_details_fails (name : string) (w : world) (c : completed) :
  run_argv w ["autorep"; "-j"; name; "-L"] = Ran c ->
  returncode c <> 0%Z ->
  AutosysLogs.get_job_details name w =
  ([Exec ["autorep"; "-j"; name; "-L"] true;
    PrintExc "Error retrieving job details: "
      (CalledProcessError ["autorep"; "-j"; name; "-L"] c);
    Print ("stderr: " ++ stderr c)],
   Exit 1%Z).
Proof.
  intros Hrun Hrc. apply Z.eqb_neq in Hrc.
  cbv [AutosysLogs.get_job_details try_except bind subprocess_run emit ask].
  rewrite Hrun, Hrc. reflexivity.
Qed.

Lemma auth_get_job_details_fails (self : AutosysLogsAuth.AutosysLogRetriever)
  (name : string) (w : world) (c : completed) :
  run_argv w (AutosysLogsAuth.autorep_cmd self name) = Ran c ->
  returncode c <> 0%Z ->
  AutosysLogsAuth.get_job_details self name w =
  ([Exec (AutosysLogsAuth.autorep_cmd self name) true;
    PrintExc "Error retrieving job details: "
      (CalledProcessError (AutosysLogsAuth.autorep_cmd self name) c);
    Print ("stderr: " ++ stderr c)],
   Raise (CalledProcessError (AutosysLogsAuth.autorep_cmd self name) c)).
Proof.
  intros Hrun Hrc. apply Z.eqb_neq in Hrc.
  cbv [AutosysLogsAuth.get_job_details try_except bind subprocess_run emit ask].
  rewrite Hrun, Hrc. reflexivity.
Qed.

(** C2, as the code has it.  In the two log retrievers a job-detail
    query ([autorep -j <job> -L]) that exits with a code other than 0 ends
    the script with exit code 1; what was printed is the banner, the
    questions for credentials if any, and the error lines with the
    captured standard error, and no report.  The summarizers never end
    that way: their [main] returns normally whatever the commands do. *)
Theorem failed_job_query_is_fatal_in_retrievers :
  (forall (argv : list string) (w : world) (c : completed),
     List.length argv = 2 ->
     let cmd := ["autorep"; "-j"; nth 1 argv EmptyString; "-L"] in
     run_argv w cmd = Ran c ->
     returncode c <> 0%Z ->
     AutosysLogs.main argv w =
       ([Print ("Retrieving logs for Autosys job: " ++ nth 1 argv EmptyString);
         Exec cmd true;
         PrintExc "Error retrieving job details: " (CalledProcessError cmd c);
         Print ("stderr: " ++ stderr c)],
        Exit 1%Z))
  /\
  (forall (parsed args : AutosysLogsAuth.namespace) (w : world) (c : completed),
     AutosysLogsAuth.parse_arguments parsed w = ([], Ok args) ->
     let self := AutosysLogsAuth.Retriever
                   (AutosysLogsAuth.ns_username parsed)
                   (final_password parsed w) (final_instance parsed w)
                   (AutosysLogsAuth.ns_server parsed) in
     let job := str_opt (AutosysLogsAuth.ns_job_name args) in
     let cmd := AutosysLogsAuth.autorep_cmd self job in
     run_argv w cmd = Ran c ->
     returncode c <> 0%Z ->
     AutosysLogsAuth.script parsed w =
       ((banner job ++ prompt_events parsed
         ++ [Exec cmd true;
             PrintExc "Error retrieving job details: " (CalledProcessError cmd c);
             Print ("stderr: " ++ stderr c);
             PrintExc "Error: " (CalledProcessError cmd c)])%list,
        Exit 1%Z))
  /\
  (forall (a : MinimalSystemLogs.args) (w : world),
     snd (MinimalSystemLogs.main a w) = Ok tt)
  /\
  (forall (a : SystemLogs.args) (w : world),
     snd (SystemLogs.main a w) = Ok tt).
Proof.
  split; [|split; [|split]].
  - intros argv w c Hlen cmd Hrun Hrc. subst cmd.
    cbv [AutosysLogs.main]. rewrite Hlen. cbn [Nat.eqb negb].
    cbv [bind print emit].
    rewrite (basic_get_job_details_fails _ w c Hrun Hrc). reflexivity.
  - intros parsed args w c Hparse self job cmd Hrun Hrc. subst cmd.
    unfold AutosysLogsAuth.script, bind.
    rewrite (auth_main_unfold _ _ _ Hparse). cbv zeta.
    unfold AutosysLogsAuth.retrieve. cbv [try_except bind].
    fold self. fold job.
    rewrite (auth_get_job_details_fails self job w c Hrun Hrc).
    cbv [print_exc emit ret sys_exit fst snd]. rewrite !app_nil_r. reflexivity.
  - intros a w. rewrite minimal_main_spec. reflexivity.
  - intros a w.
    destruct (String.eqb_spec (SystemLogs.format a) "json") as [Hf|Hf].
    + rewrite (system_main_json a w Hf). reflexivity.
    + rewrite (system_main_text a w Hf). reflexivity.
Qed.

Lemma failed_job_query_is_fatal_in_retrievers_witness :
  let w := sample_world breaks (fun _ => breaks) [] EmptyString in
  AutosysLogs.main ["autosys-logs.py"; "job1"] w =
    ([Print "Retrieving logs for Autosys job: job1";
      Exec ["autorep"; "-j"; "job1"; "-L"] true;
      PrintExc "Error retrieving job details: "
        (CalledProcessError ["autorep"; "-j"; "job1"; "-L"] breaks);
      Print "stderr: autorep: invalid job"],
     Exit 1%Z).
Proof.
  apply (proj1 failed_job_query_is_fatal_in_retrievers
           ["autosys-logs.py"; "job1"]
           (sample_world breaks (fun _ => breaks) [] EmptyString) breaks eq_refl eq_refl).
  discriminate.
Defined.

(** C2 as it is stated fails for the summarizer: its job-detail query
    ([autorep -j job1 -q]) exits with code 1, and the script prints the
    JSON report and ends with exit code 0. *)
Lemma summarizer_survives_failed_job_query :
  let a := SystemLogs.Args "job1" None "json" in
  let w := sample_world breaks (fun _ => breaks) [] EmptyString in
  returncode (run_shell w "autorep -j job1 -q") = 1%Z /\
  exit_code (snd (SystemLogs.main a w)) = 0%Z /\
  filter is_json (fst (SystemLogs.main a w)) =
    [PrintJson (Some 2)
       [("job_name", JStr "job1"); ("run_number", JNull);
        ("timestamp", JStr "2025-04-09T12:00:00"); ("metadata", JDict []);
        ("system_logs", JNull); ("run_details", JNull);
        ("status_history", JNull)]].
Proof. vm_compute. repeat split. Qed.

(** ** The presenter when the stdout file is missing *)





(** ** What a group captures *)





Lemma length_append (u s : string) :
  String.length (u ++ s) = String.length u + String.length s.
Proof. induction u as [|c u IH]; simpl; [reflexivity | rewrite IH; reflexivity]. Qed.

Lemma substring_prefix (u s : string) :
  substring 0 (String.length u) (u ++ s) = u.
Proof.
  induction u as [|c u IH]; simpl; [apply substring_zero | rewrite IH; reflexivity].
Qed.

Lemma consumed_app (u s : string) : consumed (u ++ s) s = u.
Proof.
  unfold consumed. rewrite length_append.
  replace (String.length u + String.length s - String.length s)
    with (String.length u) by lia.
  apply substring_prefix.
Qed.







(** ** The record of job details *)









(** * Further facts about the scripts *)

Import Scan Present.

(** ** The status and last-run patterns *)

Lemma take_drop_while (p : ascii -> bool) (s : string) :
  s = take_while p s ++ drop_while p s.
Proof.
  induction s as [|c s IH]; simpl; [reflexivity|].
  destruct (p c); simpl; [rewrite <- IH|]; reflexivity.
Qed.

Lemma consumed_take_while (p : ascii -> bool) (s : string) :
  consumed s (drop_while p s) = take_while p s.
Proof.
  rewrite (take_drop_while p s) at 1. apply consumed_app.
Qed.

Lemma drop_while_head (p : ascii -> bool) (s : string) :
  match drop_while p s with
  | String c _ => p c = false
  | EmptyString => True
  end.
Proof.
  induction s as [|c s IH]; simpl; [exact I|].
  destruct (p c) eqn:E; [exact IH | exact E].
Qed.

(** A greedy repetition never gives a character back when the rest of the
    pattern cannot start with a character of the class. *)
Lemma star_greedy_commit (p : ascii -> bool) (k : cont) (g : captures) :
  (forall c s, p c = true -> k (String c s) g = None) ->
  forall s, star_greedy p k s g = k (drop_while p s) g.
Proof.
  intros Hk s. induction s as [|c s IH]; simpl; [reflexivity|].
  destruct (p c) eqn:E; [|reflexivity].
  rewrite IH. destruct (k (drop_while p s) g) eqn:Ek; [reflexivity|].
  apply Hk, E.
Qed.

(** Nor when the rest of the pattern matches wherever it is tried. *)
Lemma star_greedy_total (p : ascii -> bool) (k : cont) (g : captures) :
  (forall s, k s g <> None) ->
  forall s, star_greedy p k s g = k (drop_while p s) g.
Proof.
  intros Hk s. induction s as [|c s IH]; simpl; [reflexivity|].
  destruct (p c) eqn:E; [|reflexivity].
  rewrite IH. destruct (k (drop_while p s) g) eqn:Ek; [reflexivity|].
  exfalso. exact (Hk _ Ek).
Qed.

Lemma space_not_word (c : ascii) : is_space c = true -> is_word c = false.
Proof. destruct c as [[] [] [] [] [] [] [] []]; vm_compute; congruence. Qed.

Lemma date_not_space (c : ascii) : is_date c = true -> is_space c = false.
Proof. destruct c as [[] [] [] [] [] [] [] []]; vm_compute; congruence. Qed.

Lemma space_not_time (c : ascii) : is_space c = true -> is_time c = false.
Proof. destruct c as [[] [] [] [] [] [] [] []]; vm_compute; congruence. Qed.

Lemma space_not_date (c : ascii) : is_space c = true -> is_date c = false.
Proof. destruct c as [[] [] [] [] [] [] [] []]; vm_compute; congruence. Qed.

(** [+] on a class, with a continuation [k]. *)
Lemma plus_commit (q : cclass) (k : cont) (s : string) (g : captures) :
  (forall c s', in_class q c = true -> k (String c s') g = None) ->
  match_cls Plus (in_class q) k s g =
  match s with
  | String c _ => if in_class q c then k (drop_while (in_class q) s) g else None
  | EmptyString => None
  end.
Proof.
  intros Hk. destruct s as [|c s]; simpl; [reflexivity|].
  destruct (in_class q c) eqn:E; [|reflexivity].
  apply star_greedy_commit, Hk.
Qed.

Lemma plus_total (q : cclass) (k : cont) (s : string) (g : captures) :
  (forall s', k s' g <> None) ->
  match_cls Plus (in_class q) k s g =
  match s with
  | String c _ => if in_class q c then k (drop_while (in_class q) s) g else None
  | EmptyString => None
  end.
Proof.
  intros Hk. destruct s as [|c s]; simpl; [reflexivity|].
  destruct (in_class q c) eqn:E; [|reflexivity].
  apply star_greedy_total, Hk.
Qed.

Lemma truthy_take_while (p : ascii -> bool) (s : string) :
  truthy (take_while p s) =
  match s with
  | String c _ => p c
  | EmptyString => false
  end.
Proof. destruct s as [|c s]; simpl; [reflexivity|]. destruct (p c); reflexivity. Qed.

(** The group [(\w+)] at the end of a pattern. *)
Lemma rmatch_word_group (rest : string) (g : captures) :
  rmatch (Group 1 (Cls Plus CWord)) accept rest g =
  option_map (fun v => (1, v) :: g) (word_at rest).
Proof.
  cbn [rmatch]. rewrite plus_total by (intros s' H; discriminate H).
  unfold word_at. cbv zeta. rewrite truthy_take_while.
  destruct rest as [|c r]; [reflexivity|].
  change (in_class CWord) with is_word.
  destruct (is_word c) eqn:E; [|reflexivity].
  unfold accept. rewrite consumed_take_while. reflexivity.
Qed.

Lemma consumed_three (p1 p2 p3 : ascii -> bool) (s : string) :
  consumed s (drop_while p3 (drop_while p2 (drop_while p1 s))) =
  take_while p1 s
  ++ take_while p2 (drop_while p1 s)
  ++ take_while p3 (drop_while p2 (drop_while p1 s)).
Proof.
  rewrite (take_drop_while p1 s) at 1.
  rewrite (take_drop_while p2 (drop_while p1 s)) at 1.
  rewrite (take_drop_while p3 (drop_while p2 (drop_while p1 s))) at 1.
  rewrite <- !append_assoc. rewrite consumed_app. rewrite !append_assoc. reflexivity.
Qed.

(** The group [([\d/]+\s+[\d:]+)] at the end of a pattern. *)
Lemma rmatch_date_time_group (rest : string) (g : captures) :
  rmatch (Group 1 date_time) accept rest g =
  option_map (fun v => (1, v) :: g) (date_time_at rest).
Proof.
  unfold date_time. cbn [rmatch].
  rewrite plus_commit.
  2:{ intros c s' E. cbn [match_cls].
      change (in_class CSpace c) with (is_space c).
      rewrite (date_not_space c E). reflexivity. }
  unfold date_time_at. cbv zeta. rewrite !truthy_take_while.
  change (in_class (CUnion CDigit (CChar "/"))) with is_date.
  destruct rest as [|c r]; [reflexivity|].
  destruct (is_date c) eqn:Ec; [|reflexivity].
  cbn [andb].
  rewrite plus_commit.
  2:{ intros c' s' E. cbn [match_cls].
      change (in_class CSpace c') with (is_space c') in E.
      change (in_class (CUnion CDigit (CChar ":")) c') with (is_time c').
      rewrite (space_not_time c' E). reflexivity. }
  change (in_class CSpace) with is_space.
  destruct (drop_while is_date (String c r)) as [|c1 r1] eqn:E1; [reflexivity|].
  destruct (is_space c1) eqn:Ec1; [|reflexivity].
  cbn [andb].
  rewrite plus_total by (intros s' H; discriminate H).
  change (in_class (CUnion CDigit (CChar ":"))) with is_time.
  destruct (drop_while is_space (String c1 r1)) as [|c2 r2] eqn:E2; [reflexivity|].
  destruct (is_time c2) eqn:Ec2; [|reflexivity].
  unfold accept. cbn [option_map].
  rewrite <- E2, <- E1. rewrite consumed_three. reflexivity.
Qed.

(** A pattern that starts with literal text. *)
Lemma rmatch_lit (lit : string) (r : regex) (s : string) :
  rmatch (Seq (Lit lit) r) accept s [] =
  match strip_prefix lit s with
  | Some rest => rmatch r accept rest []
  | None => None
  end.
Proof. reflexivity. Qed.

(** [\s+] before a group that cannot start with whitespace. *)
Lemma rmatch_spaces_then (r : regex) (f : string -> option string) (rest : string) :
  (forall s g, rmatch r accept s g = option_map (fun v => (1, v) :: g) (f s)) ->
  (forall c s, is_space c = true -> f (String c s) = None) ->
  rmatch (Seq (Cls Plus CSpace) r) accept rest [] =
  option_map (fun v => [(1, v)]) (spaced f rest).
Proof.
  intros Hr Hf. cbn [rmatch]. rewrite plus_commit.
  2:{ intros c s' E. rewrite Hr, (Hf c s' E). reflexivity. }
  unfold spaced. destruct rest as [|c r0]; [reflexivity|].
  change (in_class CSpace) with is_space.
  destruct (is_space c); [apply Hr | reflexivity].
Qed.

Lemma word_at_space (c : ascii) (s : string) :
  is_space c = true -> word_at (String c s) = None.
Proof.
  intros E. unfold word_at. cbv zeta. rewrite truthy_take_while.
  rewrite (space_not_word c E). reflexivity.
Qed.

Lemma date_time_at_space (c : ascii) (s : string) :
  is_space c = true -> date_time_at (String c s) = None.
Proof.
  intros E. unfold date_time_at. cbv zeta. rewrite truthy_take_while.
  rewrite (space_not_date c E). reflexivity.
Qed.

(** [re.search] and [group(1)] for a pattern whose anchored match is
    [f]. *)
Lemma first_group_leftmost (r : regex) (f : string -> option string) :
  (forall s, rmatch r accept s [] = option_map (fun v => [(1, v)]) (f s)) ->
  forall text, first_group r text = leftmost f text.
Proof.
  intros Hr text. unfold first_group.
  induction text as [|c s IH]; rewrite search_unfold, Hr; cbn [leftmost].
  - destruct (f EmptyString); reflexivity.
  - destruct (f (String c s)); [reflexivity|]. exact IH.
Qed.

Lemma basic_status_leftmost (text : string) :
  first_group AutosysLogs.status_re text
  = leftmost (labelled "Status/Event: " word_at) text.
Proof.
  apply first_group_leftmost. intros s. unfold AutosysLogs.status_re, labelled.
  rewrite rmatch_lit. destruct (strip_prefix _ s); [apply rmatch_word_group | reflexivity].
Qed.

Lemma auth_status_leftmost (text : string) :
  first_group AutosysLogsAuth.STATUS_PATTERN text
  = leftmost (labelled "Status/Event:" (spaced word_at)) text.
Proof.
  apply first_group_leftmost. intros s. unfold AutosysLogsAuth.STATUS_PATTERN, labelled.
  rewrite rmatch_lit. destruct (strip_prefix _ s); [|reflexivity].
  apply rmatch_spaces_then; [apply rmatch_word_group | apply word_at_space].
Qed.

Lemma basic_last_run_leftmost (text : string) :
  first_group AutosysLogs.last_run_re text
  = leftmost (labelled "Last Run: " date_time_at) text.
Proof.
  apply first_group_leftmost. intros s. unfold AutosysLogs.last_run_re, labelled.
  rewrite rmatch_lit. destruct (strip_prefix _ s); [|reflexivity].
  apply rmatch_date_time_group.
Qed.

Lemma auth_last_run_leftmost (text : string) :
  first_group AutosysLogsAuth.LAST_RUN_PATTERN text
  = leftmost (labelled "Last Run:" (spaced date_time_at)) text.
Proof.
  apply first_group_leftmost. intros s. unfold AutosysLogsAuth.LAST_RUN_PATTERN, labelled.
  rewrite rmatch_lit. destruct (strip_prefix _ s); [|reflexivity].
  apply rmatch_spaces_then; [apply rmatch_date_time_group | apply date_time_at_space].
Qed.

(** ** The presenter, section by section *)

Lemma plain_show_stream_spec (name : string) (path : option string)
  (upper lower flag : string) (w : world) :
  AutosysLogs.show_stream name path upper lower flag w =
  (stream_section w path upper lower
     (plain_fallback w lower ["autosyslog"; "-j"; name; flag]),
   Ok tt).
Proof.
  unfold stream_section, plain_fallback, stream_header, direct_read,
    direct_access_failed, not_available.
  cbv [AutosysLogs.show_stream try_except bind print print_exc emit ask ret
       subprocess_run raise open_read].
  destruct (otruthy path); [|reflexivity].
  destruct (path_exists w (str_opt path)).
  - destruct (read_file w (str_opt path)); reflexivity.
  - destruct (run_argv w ["autosyslog"; "-j"; name; flag]) as [c|msg];
      [destruct (Z.eqb (returncode c) 0)|]; reflexivity.
Qed.

Lemma auth_show_stream_spec (self : AutosysLogsAuth.AutosysLogRetriever)
  (name : string) (path : option string) (upper lower : string)
  (is_stdout : bool) (w : world) :
  AutosysLogsAuth.show_stream self name path upper lower is_stdout w =
  (stream_section w path upper lower
     (auth_fallback w lower (AutosysLogsAuth.autosyslog_cmd self name is_stdout)),
   Ok tt).
Proof.
  unfold stream_section, auth_fallback, stream_header, direct_read,
    direct_access_failed, not_available.
  cbv [AutosysLogsAuth.show_stream AutosysLogsAuth.retrieve_log_via_autosys
       try_except bind print print_exc emit ask ret subprocess_run raise open_read].
  destruct (otruthy path); [|reflexivity].
  destruct (path_exists w (str_opt path)).
  - destruct (read_file w (str_opt path)); reflexivity.
  - destruct (run_argv w (AutosysLogsAuth.autosyslog_cmd self name is_stdout))
      as [c|msg]; [destruct (Z.eqb (returncode c) 0)|]; reflexivity.
Qed.

Lemma plain_get_job_logs_spec (jd : AutosysLogs.job_details) (w : world) :
  AutosysLogs.get_job_logs jd w = (plain_report w jd, Ok tt).
Proof.
  unfold plain_report, report_header.
  cbv [AutosysLogs.get_job_logs try_finally bind mkdtemp rmtree print emit ask].
  rewrite !plain_show_stream_spec. cbn [fst snd app].
  rewrite <- !app_assoc. reflexivity.
Qed.

Lemma auth_get_job_logs_spec (self : AutosysLogsAuth.AutosysLogRetriever)
  (jd : AutosysLogsAuth.job_details) (w : world) :
  AutosysLogsAuth.get_job_logs self jd w = (auth_report w self jd, Ok tt).
Proof.
  unfold auth_report, report_header.
  cbv [AutosysLogsAuth.get_job_logs try_finally bind mkdtemp rmtree print emit ask].
  rewrite !auth_show_stream_spec. cbn [fst snd app].
  rewrite <- !app_assoc. reflexivity.
Qed.

Lemma commands_app (t t' : list event) :
  commands (t ++ t') = (commands t ++ commands t')%list.
Proof.
  induction t as [|e t IH]; [reflexivity|].
  destruct e; simpl; rewrite IH; reflexivity.
Qed.

Lemma commands_direct_read (w : world) (lower path : string) :
  commands (direct_read w lower path) = [].
Proof. unfold direct_read. destruct (read_file w path); reflexivity. Qed.

Lemma commands_plain_fallback (w : world) (lower : string) (cmd : list string) :
  commands (plain_fallback w lower cmd) = [cmd].
Proof.
  unfold plain_fallback. cbn [commands direct_access_failed].
  destruct (run_argv w cmd) as [c|msg]; [destruct (Z.eqb (returncode c) 0)|];
    reflexivity.
Qed.

Lemma commands_auth_fallback (w : world) (lower : string) (cmd : list string) :
  commands (auth_fallback w lower cmd) = [cmd].
Proof.
  unfold auth_fallback. cbn [commands direct_access_failed].
  destruct (run_argv w cmd) as [c|msg]; [destruct (Z.eqb (returncode c) 0)|];
    reflexivity.
Qed.

Lemma commands_stream_section (w : world) (path : option string)
  (upper lower : string) (fallback : list event) :
  commands (stream_section w path upper lower fallback) =
  if needs_fallback w path then commands fallback else [].
Proof.
  unfold stream_section, needs_fallback.
  destruct (otruthy path); [|reflexivity].
  rewrite commands_app. cbn [stream_header commands app andb].
  destruct (path_exists w (str_opt path)); [apply commands_direct_read | reflexivity].
Qed.

(** X5. [get_job_logs] returns normally whatever the files and the
    fallback commands do, in both retrievers, and its run is bracketed by
    the temporary directory: it starts by making one with the prefix
    [autosys_logs_] and ends by removing it. *)
Theorem get_job_logs_always_cleans_up :
  (forall (jd : AutosysLogs.job_details) (w : world),
     exists mid,
       AutosysLogs.get_job_logs jd w =
       ((Mkdtemp "autosys_logs_" :: mid ++ [Rmtree (temp_dir w)])%list, Ok tt))
  /\
  (forall (self : AutosysLogsAuth.AutosysLogRetriever)
          (jd : AutosysLogsAuth.job_details) (w : world),
     exists mid,
       AutosysLogsAuth.get_job_logs self jd w =
       ((Mkdtemp "autosys_logs_" :: mid ++ [Rmtree (temp_dir w)])%list, Ok tt)).
Proof.
  split.
  - intros jd w. rewrite plain_get_job_logs_spec. unfold plain_report.
    eexists. rewrite !app_assoc. reflexivity.
  - intros self jd w. rewrite auth_get_job_logs_spec. unfold auth_report.
    eexists. rewrite !app_assoc. reflexivity.
Qed.

(** X6. The external commands [get_job_logs] runs are decided stream by
    stream: [autosyslog -j <job> -o] exactly when the stdout path is
    resolved and does not exist, then [autosyslog -j <job> -e] exactly
    when the stderr path is resolved and does not exist (with the
    credential flags in the authenticated script), and nothing else. *)
Theorem get_job_logs_commands :
  (forall (jd : AutosysLogs.job_details) (w : world),
     commands (fst (AutosysLogs.get_job_logs jd w)) =
     ((if needs_fallback w (AutosysLogs.std_out_file jd)
       then [["autosyslog"; "-j"; AutosysLogs.job_name jd; "-o"]] else [])
      ++
      (if needs_fallback w (AutosysLogs.std_err_file jd)
       then [["autosyslog"; "-j"; AutosysLogs.job_name jd; "-e"]] else []))%list)
  /\
  (forall (self : AutosysLogsAuth.AutosysLogRetriever)
          (jd : AutosysLogsAuth.job_details) (w : world),
     commands (fst (AutosysLogsAuth.get_job_logs self jd w)) =
     ((if needs_fallback w (AutosysLogsAuth.std_out_file jd)
       then [(["autosyslog"; "-j"; AutosysLogsAuth.job_name jd; "-o"]
              ++ credential_flags self)%list] else [])
      ++
      (if needs_fallback w (AutosysLogsAuth.std_err_file jd)
       then [(["autosyslog"; "-j"; AutosysLogsAuth.job_name jd; "-e"]
              ++ credential_flags self)%list] else []))%list).
Proof.
  split.
  - intros jd w. rewrite plain_get_job_logs_spec. unfold plain_report.
    cbn [fst commands report_header app].
    rewrite !commands_app, !commands_stream_section, !commands_plain_fallback.
    cbn [commands]. rewrite app_nil_r. reflexivity.
  - intros self jd w. rewrite auth_get_job_logs_spec. unfold auth_report.
    cbn [fst commands report_header app].
    rewrite !commands_app, !commands_stream_section, !commands_auth_fallback.
    rewrite !autosyslog_cmd_flags.
    cbn [commands]. rewrite app_nil_r. reflexivity.
Qed.

(** X7. When both resolved paths exist, [get_job_logs] runs no external
    command at all, also when reading a file fails: the report is the
    header and, for each stream, its two header lines followed by the
    content of the file or by the error of reading it. *)
Theorem existing_files_are_read_directly :
  (forall (jd : AutosysLogs.job_details) (w : world) (out err : string),
     AutosysLogs.std_out_file jd = Some out -> truthy out = true ->
     AutosysLogs.std_err_file jd = Some err -> truthy err = true ->
     path_exists w out = true -> path_exists w err = true ->
     AutosysLogs.get_job_logs jd w =
     ((Mkdtemp "autosys_logs_" ::
       report_header (AutosysLogs.job_name jd) (AutosysLogs.status jd)
                     (AutosysLogs.last_run jd)
       ++ stream_header "STDOUT" out ++ direct_read w "stdout" out
       ++ stream_header "STDERR" err ++ direct_read w "stderr" err
       ++ [Rmtree (temp_dir w)])%list, Ok tt))
  /\
  (forall (self : AutosysLogsAuth.AutosysLogRetriever)
          (jd : AutosysLogsAuth.job_details) (w : world) (out err : string),
     AutosysLogsAuth.std_out_file jd = Some out -> truthy out = true ->
     AutosysLogsAuth.std_err_file jd = Some err -> truthy err = true ->
     path_exists w out = true -> path_exists w err = true ->
     AutosysLogsAuth.get_job_logs self jd w =
     ((Mkdtemp "autosys_logs_" ::
       report_header (AutosysLogsAuth.job_name jd) (AutosysLogsAuth.status jd)
                     (AutosysLogsAuth.last_run jd)
       ++ stream_header "STDOUT" out ++ direct_read w "stdout" out
       ++ stream_header "STDERR" err ++ direct_read w "stderr" err
       ++ [Rmtree (temp_dir w)])%list, Ok tt)).
Proof.
  split.
  - intros jd w out err Ho Hto He Hte Hxo Hxe.
    rewrite plain_get_job_logs_spec. unfold plain_report, stream_section.
    rewrite Ho, He. cbn [otruthy str_opt]. rewrite Hto, Hte, Hxo, Hxe.
    rewrite <- !app_assoc. reflexivity.
  - intros self jd w out err Ho Hto He Hte Hxo Hxe.
    rewrite auth_get_job_logs_spec. unfold auth_report, stream_section.
    rewrite Ho, He. cbn [otruthy str_opt]. rewrite Hto, Hte, Hxo, Hxe.
    rewrite <- !app_assoc. reflexivity.
Qed.

Lemma existing_files_are_read_directly_witness :
  let jd := AutosysLogs.JobDetails "job1" (Some "SUCCESS") None
              (Some "/logs/job1.out") (Some "/logs/job1.err") in
  let w := sample_world breaks (fun _ => breaks)
             ["/logs/job1.out"; "/logs/job1.err"] EmptyString in
  AutosysLogs.get_job_logs jd w =
  ((Mkdtemp "autosys_logs_" ::
    report_header "job1" (Some "SUCCESS") None
    ++ stream_header "STDOUT" "/logs/job1.out"
    ++ direct_read w "stdout" "/logs/job1.out"
    ++ stream_header "STDERR" "/logs/job1.err"
    ++ direct_read w "stderr" "/logs/job1.err"
    ++ [Rmtree (temp_dir w)])%list, Ok tt).
Proof.
  exact (proj1 existing_files_are_read_directly
           (AutosysLogs.JobDetails "job1" (Some "SUCCESS") None
              (Some "/logs/job1.out") (Some "/logs/job1.err"))
           (sample_world breaks (fun _ => breaks)
              ["/logs/job1.out"; "/logs/job1.err"] EmptyString)
           "/logs/job1.out" "/logs/job1.err"
           eq_refl eq_refl eq_refl eq_refl eq_refl eq_refl).
Defined.

(** ** Status, last run and the two paths, from the text of the report *)

Lemma leftmost_first (lit : string) (f : string -> option string)
  (text tail v : string) :
  find_after lit text = Some tail -> f tail = Some v ->
  leftmost (labelled lit f) text = Some v.
Proof.
  intros Hfind Hf. induction text as [|c s IH]; cbn [leftmost find_after] in *;
    unfold labelled in *.
  - destruct (strip_prefix lit EmptyString) as [rest|]; [|discriminate].
    injection Hfind as ->. rewrite Hf. reflexivity.
  - destruct (strip_prefix lit (String c s)) as [rest|].
    + injection Hfind as ->. rewrite Hf. reflexivity.
    + apply IH, Hfind.
Qed.

Lemma leftmost_absent (lit : string) (f : string -> option string) (text : string) :
  find_after lit text = None -> leftmost (labelled lit f) text = None.
Proof.
  intros Hfind. induction text as [|c s IH]; cbn [leftmost find_after] in *;
    unfold labelled in *.
  - destruct (strip_prefix lit EmptyString); [discriminate|reflexivity].
  - destruct (strip_prefix lit (String c s)); [discriminate|]. apply IH, Hfind.
Qed.

(** X1. The status [get_job_details] returns is the word found by a
    scan of the report from the left: the longest run of word characters
    right after the leftmost [Status/Event: ] that is followed by a word
    character (in the authenticated script: after [Status/Event:] and the
    whitespace that follows it).  So it is absent when the label does not
    occur, and it is the word after the first occurrence of the label when
    there is a word there. *)
Theorem status_is_the_word_after_the_label (name : string) :
  (forall (w : world) (c : completed),
     run_argv w ["autorep"; "-j"; name; "-L"] = Ran c ->
     returncode c = 0%Z ->
     exists t jd,
       AutosysLogs.get_job_details name w = (t, Ok jd)
       /\ AutosysLogs.status jd
          = leftmost (labelled "Status/Event: " word_at) (stdout c)
       /\ (find_after "Status/Event: " (stdout c) = None ->
           AutosysLogs.status jd = None)
       /\ (forall tail v,
             find_after "Status/Event: " (stdout c) = Some tail ->
             word_at tail = Some v -> AutosysLogs.status jd = Some v))
  /\
  (forall (self : AutosysLogsAuth.AutosysLogRetriever) (w : world) (c : completed),
     run_argv w (AutosysLogsAuth.autorep_cmd self name) = Ran c ->
     returncode c = 0%Z ->
     exists t jd,
       AutosysLogsAuth.get_job_details self name w = (t, Ok jd)
       /\ AutosysLogsAuth.status jd
          = leftmost (labelled "Status/Event:" (spaced word_at)) (stdout c)
       /\ (find_after "Status/Event:" (stdout c) = None ->
           AutosysLogsAuth.status jd = None)
       /\ (forall tail v,
             find_after "Status/Event:" (stdout c) = Some tail ->
             spaced word_at tail = Some v -> AutosysLogsAuth.status jd = Some v)).
Proof.
  split.
  - intros w c Hrun Hrc. rewrite (basic_get_job_details_ok name w c Hrun Hrc).
    do 2 eexists. split; [reflexivity|]. cbn [AutosysLogs.status].
    rewrite basic_status_leftmost. split; [reflexivity|]. split.
    + apply leftmost_absent.
    + intros tail v. apply leftmost_first.
  - intros self w c Hrun Hrc. rewrite (auth_get_job_details_ok self name w c Hrun Hrc).
    do 2 eexists. split; [reflexivity|]. cbn [AutosysLogsAuth.status].
    rewrite auth_status_leftmost. split; [reflexivity|]. split.
    + apply leftmost_absent.
    + intros tail v. apply leftmost_first.
Qed.

Lemma status_is_the_word_after_the_label_witness :
  let out := "job1  04/09/2025 10:30:00" ++ nl ++ "Status/Event: SUCCESS/0" in
  let w := sample_world (succeeds out) (fun _ => breaks) [] EmptyString in
  exists t jd,
    AutosysLogs.get_job_details "job1" w = (t, Ok jd)
    /\ AutosysLogs.status jd = Some "SUCCESS".
Proof.
  destruct (proj1 (status_is_the_word_after_the_label "job1")
              (sample_world
                 (succeeds ("job1  04/09/2025 10:30:00" ++ nl
                            ++ "Status/Event: SUCCESS/0"))
                 (fun _ => breaks) [] EmptyString)
              (succeeds ("job1  04/09/2025 10:30:00" ++ nl
                         ++ "Status/Event: SUCCESS/0"))
              eq_refl eq_refl)
    as (t & jd & Hrun & _ & _ & Hfirst).
  exists t, jd. split; [exact Hrun|].
  apply (Hfirst "SUCCESS/0" "SUCCESS"); reflexivity.
Defined.

(** X2. The last run [get_job_details] returns is found by a scan of the
    report from the left for [Last Run: ] followed by a date, whitespace
    and a time: the longest run of digits and slashes, all the whitespace
    after it and the longest run of digits and colons after that, none of
    them empty (in the authenticated script: after [Last Run:] and the
    whitespace that follows it).  It is absent when the label does not
    occur, and it is what stands after the first occurrence of the label
    when that has this form. *)
Theorem last_run_is_the_date_and_time_after_the_label (name : string) :
  (forall (w : world) (c : completed),
     run_argv w ["autorep"; "-j"; name; "-L"] = Ran c ->
     returncode c = 0%Z ->
     exists t jd,
       AutosysLogs.get_job_details name w = (t, Ok jd)
       /\ AutosysLogs.last_run jd
          = leftmost (labelled "Last Run: " date_time_at) (stdout c)
       /\ (find_after "Last Run: " (stdout c) = None ->
           AutosysLogs.last_run jd = None)
       /\ (forall tail v,
             find_after "Last Run: " (stdout c) = Some tail ->
             date_time_at tail = Some v -> AutosysLogs.last_run jd = Some v))
  /\
  (forall (self : AutosysLogsAuth.AutosysLogRetriever) (w : world) (c : completed),
     run_argv w (AutosysLogsAuth.autorep_cmd self name) = Ran c ->
     returncode c = 0%Z ->
     exists t jd,
       AutosysLogsAuth.get_job_details self name w = (t, Ok jd)
       /\ AutosysLogsAuth.last_run jd
          = leftmost (labelled "Last Run:" (spaced date_time_at)) (stdout c)
       /\ (find_after "Last Run:" (stdout c) = None ->
           AutosysLogsAuth.last_run jd = None)
       /\ (forall tail v,
             find_after "Last Run:" (stdout c) = Some tail ->
             spaced date_time_at tail = Some v ->
             AutosysLogsAuth.last_run jd = Some v)).
Proof.
  split.
  - intros w c Hrun Hrc. rewrite (basic_get_job_details_ok name w c Hrun Hrc).
    do 2 eexists. split; [reflexivity|]. cbn [AutosysLogs.last_run].
    rewrite basic_last_run_leftmost. split; [reflexivity|]. split.
    + apply leftmost_absent.
    + intros tail v. apply leftmost_first.
  - intros self w c Hrun Hrc. rewrite (auth_get_job_details_ok self name w c Hrun Hrc).
    do 2 eexists. split; [reflexivity|]. cbn [AutosysLogsAuth.last_run].
    rewrite auth_last_run_leftmost. split; [reflexivity|]. split.
    + apply leftmost_absent.
    + intros tail v. apply leftmost_first.
Qed.

Lemma last_run_is_the_date_and_time_after_the_label_witness :
  let out := "Last Run: 04/09/2025  10:30:00 ST" in
  let w := sample_world (succeeds out) (fun _ => breaks) [] EmptyString in
  exists t jd,
    AutosysLogsAuth.get_job_details
      (AutosysLogsAuth.Retriever None None None None) "job1" w = (t, Ok jd)
    /\ AutosysLogsAuth.last_run jd = Some "04/09/2025  10:30:00".
Proof.
  destruct (proj2 (last_run_is_the_date_and_time_after_the_label "job1")
              (AutosysLogsAuth.Retriever None None None None)
              (sample_world (succeeds "Last Run: 04/09/2025  10:30:00 ST")
                 (fun _ => breaks) [] EmptyString)
              (succeeds "Last Run: 04/09/2025  10:30:00 ST")
              eq_refl eq_refl)
    as (t & jd & Hrun & _ & _ & Hfirst).
  exists t, jd. split; [exact Hrun|].
  apply (Hfirst " 04/09/2025  10:30:00 ST" "04/09/2025  10:30:00"); reflexivity.
Defined.

Lemma resolved_path_explicit (label ext name text v : string) :
  explicit_value label text = Some v -> resolved_path label ext name text = Some v.
Proof. unfold resolved_path. intros ->. reflexivity. Qed.

Lemma resolved_path_none (label ext name text : string) :
  explicit_value label text = None -> value_after "job_dir" text = None ->
  resolved_path label ext name text = None.
Proof. unfold resolved_path. intros -> ->. reflexivity. Qed.

(** X3. Each of the two paths is resolved on its own.  A value that is
    not empty after [std_out_file:] (or [std_err_file:]) is returned as it
    is, whether or not the report has a job directory; a stream without
    such a value gets the path derived from a job directory that is not
    empty, also when the other stream has an explicit value; without a
    value and without the [job_dir:] label the path stays unset. *)
Theorem paths_are_resolved_independently (name : string) :
  (forall (w : world) (c : completed),
     run_argv w ["autorep"; "-j"; name; "-L"] = Ran c ->
     returncode c = 0%Z ->
     exists t jd,
       AutosysLogs.get_job_details name w = (t, Ok jd)
       /\ (forall v, explicit_value "std_out_file" (stdout c) = Some v ->
                     AutosysLogs.std_out_file jd = Some v)
       /\ (forall v, explicit_value "std_err_file" (stdout c) = Some v ->
                     AutosysLogs.std_err_file jd = Some v)
       /\ (forall d, explicit_value "std_out_file" (stdout c) = None ->
                     explicit_value "job_dir" (stdout c) = Some d ->
                     AutosysLogs.std_out_file jd
                     = Some (os_path_join d (name ++ ".out")))
       /\ (forall d, explicit_value "std_err_file" (stdout c) = None ->
                     explicit_value "job_dir" (stdout c) = Some d ->
                     AutosysLogs.std_err_file jd
                     = Some (os_path_join d (name ++ ".err")))
       /\ (explicit_value "std_out_file" (stdout c) = None ->
           value_after "job_dir" (stdout c) = None ->
           AutosysLogs.std_out_file jd = None)
       /\ (explicit_value "std_err_file" (stdout c) = None ->
           value_after "job_dir" (stdout c) = None ->
           AutosysLogs.std_err_file jd = None))
  /\
  (forall (self : AutosysLogsAuth.AutosysLogRetriever) (w : world) (c : completed),
     run_argv w (AutosysLogsAuth.autorep_cmd self name) = Ran c ->
     returncode c = 0%Z ->
     exists t jd,
       AutosysLogsAuth.get_job_details self name w = (t, Ok jd)
       /\ (forall v, explicit_value "std_out_file" (stdout c) = Some v ->
                     AutosysLogsAuth.std_out_file jd = Some v)
       /\ (forall v, explicit_value "std_err_file" (stdout c) = Some v ->
                     AutosysLogsAuth.std_err_file jd = Some v)
       /\ (forall d, explicit_value "std_out_file" (stdout c) = None ->
                     explicit_value "job_dir" (stdout c) = Some d ->
                     AutosysLogsAuth.std_out_file jd
                     = Some (os_path_join d (name ++ ".out")))
       /\ (forall d, explicit_value "std_err_file" (stdout c) = None ->
                     explicit_value "job_dir" (stdout c) = Some d ->
                     AutosysLogsAuth.std_err_file jd
                     = Some (os_path_join d (name ++ ".err")))
       /\ (explicit_value "std_out_file" (stdout c) = None ->
           value_after "job_dir" (stdout c) = None ->
           AutosysLogsAuth.std_out_file jd = None)
       /\ (explicit_value "std_err_file" (stdout c) = None ->
           value_after "job_dir" (stdout c) = None ->
           AutosysLogsAuth.std_err_file jd = None)).
Proof.
  split.
  - intros w c Hrun Hrc. rewrite (basic_get_job_details_ok name w c Hrun Hrc).
    do 2 eexists. split; [reflexivity|].
    cbn [AutosysLogs.std_out_file AutosysLogs.std_err_file].
    repeat split; intros;
      first [ apply resolved_path_explicit; assumption
            | apply resolved_path_derived; assumption
            | apply resolved_path_none; assumption ].
  - intros self w c Hrun Hrc. rewrite (auth_get_job_details_ok self name w c Hrun Hrc).
    do 2 eexists. split; [reflexivity|].
    cbn [AutosysLogsAuth.std_out_file AutosysLogsAuth.std_err_file].
    repeat split; intros;
      first [ apply resolved_path_explicit; assumption
            | apply resolved_path_derived; assumption
            | apply resolved_path_none; assumption ].
Qed.

Lemma paths_are_resolved_independently_witness :
  let out := "std_out_file: /var/log/a.out" ++ nl ++ "job_dir: /data/jobs" in
  let w := sample_world (succeeds out) (fun _ => breaks) [] EmptyString in
  exists t jd,
    AutosysLogs.get_job_details "job1" w = (t, Ok jd)
    /\ AutosysLogs.std_out_file jd = Some "/var/log/a.out"
    /\ AutosysLogs.std_err_file jd = Some "/data/jobs/job1.err".
Proof.
  destruct (proj1 (paths_are_resolved_independently "job1")
              (sample_world
                 (succeeds ("std_out_file: /var/log/a.out" ++ nl
                            ++ "job_dir: /data/jobs"))
                 (fun _ => breaks) [] EmptyString)
              (succeeds ("std_out_file: /var/log/a.out" ++ nl
                         ++ "job_dir: /data/jobs"))
              eq_refl eq_refl)
    as (t & jd & Hrun & Hout & _ & _ & Herr & _).
  exists t, jd. split; [exact Hrun|]. split.
  - apply Hout. reflexivity.
  - apply (Herr "/data/jobs"); reflexivity.
Defined.

(** ** The metadata mapping *)

Lemma search_attr_cases (attr text : string) :
  match search (attr_pattern attr) text with
  | Some m => exists v, group 1 m = Some v /\ value_after attr text = Some v
  | None => value_after attr text = None
  end.
Proof.
  pose proof (search_attr_pattern attr text) as H. unfold search_group1 in H.
  destruct (search (attr_pattern attr) text) as [m|];
    destruct (value_after attr text) as [v|]; simpl in H; try discriminate.
  - exists v. split; [congruence|reflexivity].
  - reflexivity.
Qed.

Lemma extract_attr_spec (info : string) (acc : SystemLogs.metadata_dict)
  (attr : string) :
  SystemLogs.extract_attr info acc attr =
  (acc ++ match value_after attr info with
          | Some v => [(attr, Some v)]
          | None => []
          end)%list.
Proof.
  unfold SystemLogs.extract_attr. pose proof (search_attr_cases attr info) as H.
  destruct (search (attr_pattern attr) info) as [m|].
  - destruct H as (v & Hg & ->). rewrite Hg. reflexivity.
  - rewrite H. symmetry. apply app_nil_r.
Qed.

Lemma fold_extract_attr (info : string) (attrs : list string)
  (acc : SystemLogs.metadata_dict) :
  fold_left (SystemLogs.extract_attr info) attrs acc =
  (acc ++ flat_map (fun attr =>
                      match value_after attr info with
                      | Some v => [(attr, Some v)]
                      | None => []
                      end) attrs)%list.
Proof.
  revert acc. induction attrs as [|a attrs IH]; intros acc; cbn [fold_left flat_map].
  - symmetry. apply app_nil_r.
  - rewrite IH, extract_attr_spec, <- app_assoc. reflexivity.
Qed.

Lemma extract_job_metadata_spec (job_info : option string) :
  SystemLogs.extract_job_metadata job_info =
  if otruthy job_info then metadata_of (str_opt job_info) else [].
Proof.
  unfold SystemLogs.extract_job_metadata, metadata_of. cbv zeta.
  destruct (otruthy job_info); cbn [negb]; [|reflexivity].
  apply fold_extract_attr.
Qed.

Lemma metadata_keys_in (info : string) (attrs : list string) (a : string) :
  In a (map fst (flat_map (fun attr =>
                             match value_after attr info with
                             | Some v => [(attr, Some v)]
                             | None => []
                             end) attrs)) ->
  In a attrs.
Proof.
  induction attrs as [|b attrs IH]; cbn [flat_map]; [auto|].
  rewrite map_app. intros H. apply in_app_or in H as [H|H].
  - destruct (value_after b info); cbn in H; [|contradiction].
    destruct H as [<-|[]]. left. reflexivity.
  - right. apply IH, H.
Qed.

Lemma metadata_keys_nodup (info : string) (attrs : list string) :
  NoDup attrs ->
  NoDup (map fst (flat_map (fun attr =>
                              match value_after attr info with
                              | Some v => [(attr, Some v)]
                              | None => []
                              end) attrs)).
Proof.
  induction 1 as [|b attrs Hb Hnd IH]; cbn [flat_map]; [constructor|].
  rewrite map_app. destruct (value_after b info); cbn [map app fst].
  - constructor; [|exact IH]. intros Hin. apply Hb, (metadata_keys_in info), Hin.
  - exact IH.
Qed.

Lemma attributes_nodup : NoDup SystemLogs.attributes.
Proof.
  unfold SystemLogs.attributes.
  repeat (constructor; [cbn [In]; intuition discriminate|]). constructor.
Qed.

(** X4. The metadata mapping holds exactly the attributes of the fixed
    list whose label [<attribute>:] occurs in the job info, in the order
    of that list and each once, with the first whitespace-delimited token
    after the first occurrence of the label as its value (a value holds no
    whitespace); it is empty when there is no job info or the job info is
    empty. *)
Theorem metadata_is_the_labelled_attributes (job_info : option string) :
  SystemLogs.extract_job_metadata job_info
  = (if otruthy job_info then metadata_of (str_opt job_info) else [])
  /\ NoDup (map fst (SystemLogs.extract_job_metadata job_info))
  /\ (forall attr v,
        In (attr, v) (SystemLogs.extract_job_metadata job_info) <->
        otruthy job_info = true /\ In attr SystemLogs.attributes
        /\ exists s, v = Some s /\ value_after attr (str_opt job_info) = Some s)
  /\ (forall attr s,
        In (attr, Some s) (SystemLogs.extract_job_metadata job_info) ->
        no_space s).
Proof.
  rewrite extract_job_metadata_spec.
  assert (Hin : forall info attr v,
             In (attr, v) (metadata_of info) <->
             In attr SystemLogs.attributes
             /\ exists s, v = Some s /\ value_after attr info = Some s).
  { intros info attr v. unfold metadata_of. rewrite in_flat_map. split.
    - intros (a & Ha & Hv). destruct (value_after a info) as [s|] eqn:E;
        cbn in Hv; [|contradiction].
      destruct Hv as [[= <- <-]|[]]. split; [exact Ha|]. exists s. auto.
    - intros (Ha & s & -> & Hs). exists attr. split; [exact Ha|].
      rewrite Hs. left. reflexivity. }
  split; [reflexivity|]. split; [|split].
  - destruct (otruthy job_info); [|constructor].
    apply metadata_keys_nodup, attributes_nodup.
  - intros attr v. destruct (otruthy job_info).
    + rewrite Hin. tauto.
    + split; [intros []|intros [H _]; discriminate H].
  - intros attr s H. destruct (otruthy job_info); [|destruct H].
    apply Hin in H as (_ & s' & [= ->] & Hs).
    apply (value_after_no_space _ _ _ Hs).
Qed.

Lemma metadata_is_the_labelled_attributes_witness :
  let info := "insert_job: job1" ++ nl ++ "machine: prod01" ++ nl ++ "command: ls" in
  In ("machine", Some "prod01") (SystemLogs.extract_job_metadata (Some info))
  /\ no_space "prod01".
Proof.
  assert (H : In ("machine", Some "prod01")
                (SystemLogs.extract_job_metadata
                   (Some ("insert_job: job1" ++ nl ++ "machine: prod01" ++ nl
                          ++ "command: ls")))).
  { left. reflexivity. }
  split; [exact H|].
  exact (proj2 (proj2 (proj2 (metadata_is_the_labelled_attributes
           (Some ("insert_job: job1" ++ nl ++ "machine: prod01" ++ nl
                  ++ "command: ls"))))) "machine" "prod01" H).
Defined.

(** ** How the retrievers end *)

Lemma plain_get_job_details_spec (name : string) (w : world) :
  let cmd := ["autorep"; "-j"; name; "-L"] in
  AutosysLogs.get_job_details name w =
  match run_argv w cmd with
  | Ran c =>
      if Z.eqb (returncode c) 0
      then ([Exec cmd true], Ok (plain_details name (stdout c)))
      else ([Exec cmd true;
             PrintExc "Error retrieving job details: " (CalledProcessError cmd c);
             Print ("stderr: " ++ stderr c)], Exit 1%Z)
  | NotStarted msg =>
      ([Exec cmd true; PrintExc "Unexpected error: " (OSError msg)], Exit 1%Z)
  end.
Proof.
  cbv zeta. destruct (run_argv w ["autorep"; "-j"; name; "-L"]) as [c|msg] eqn:Hrun.
  - destruct (Z.eqb_spec (returncode c) 0) as [Hrc|Hrc].
    + apply (basic_get_job_details_ok name w c Hrun Hrc).
    + apply (basic_get_job_details_fails name w c Hrun Hrc).
  - cbv [AutosysLogs.get_job_details try_except bind subprocess_run emit ask].
    rewrite Hrun. reflexivity.
Qed.

Lemma auth_get_job_details_spec (self : AutosysLogsAuth.AutosysLogRetriever)
  (name : string) (w : world) :
  let cmd := AutosysLogsAuth.autorep_cmd self name in
  AutosysLogsAuth.get_job_details self name w =
  match run_argv w cmd with
  | Ran c =>
      if Z.eqb (returncode c) 0
      then ([Exec cmd true], Ok (auth_details name (stdout c)))
      else ([Exec cmd true;
             PrintExc "Error retrieving job details: " (CalledProcessError cmd c);
             Print ("stderr: " ++ stderr c)],
            Raise (CalledProcessError cmd c))
  | NotStarted msg =>
      ([Exec cmd true; PrintExc "Unexpected error: " (OSError msg)],
       Raise (RuntimeError "Failed to retrieve job details: " (OSError msg)))
  end.
Proof.
  cbv zeta.
  destruct (run_argv w (AutosysLogsAuth.autorep_cmd self name)) as [c|msg] eqn:Hrun.
  - destruct (Z.eqb_spec (returncode c) 0) as [Hrc|Hrc].
    + apply (auth_get_job_details_ok self name w c Hrun Hrc).
    + apply (auth_get_job_details_fails self name w c Hrun Hrc).
  - cbv [AutosysLogsAuth.get_job_details try_except bind subprocess_run emit ask].
    rewrite Hrun. reflexivity.
Qed.

Lemma plain_main_spec (argv : list string) (w : world) :
  List.length argv = 2 ->
  let name := nth 1 argv EmptyString in
  let cmd := ["autorep"; "-j"; name; "-L"] in
  AutosysLogs.main argv w =
  match run_argv w cmd with
  | Ran c =>
      if Z.eqb (returncode c) 0
      then ((Print ("Retrieving logs for Autosys job: " ++ name)
             :: Exec cmd true :: plain_report w (plain_details name (stdout c)))%list,
            Ok tt)
      else ([Print ("Retrieving logs for Autosys job: " ++ name);
             Exec cmd true;
             PrintExc "Error retrieving job details: " (CalledProcessError cmd c);
             Print ("stderr: " ++ stderr c)], Exit 1%Z)
  | NotStarted msg =>
      ([Print ("Retrieving logs for Autosys job: " ++ name);
        Exec cmd true; PrintExc "Unexpected error: " (OSError msg)], Exit 1%Z)
  end.
Proof.
  intros Hlen. cbv zeta. cbv [AutosysLogs.main]. rewrite Hlen. cbn [Nat.eqb negb].
  cbv [bind print emit]. rewrite plain_get_job_details_spec. cbv zeta.
  destruct (run_argv w _) as [c|msg]; [destruct (Z.eqb (returncode c) 0)|];
    try reflexivity.
  rewrite plain_get_job_logs_spec. reflexivity.
Qed.

Lemma auth_retrieve_spec (u p i s : option string) (name : string) (w : world) :
  let self := AutosysLogsAuth.Retriever u p i s in
  let cmd := AutosysLogsAuth.autorep_cmd self name in
  AutosysLogsAuth.retrieve u p i s name w =
  match run_argv w cmd with
  | Ran c =>
      if Z.eqb (returncode c) 0
      then ((Exec cmd true :: auth_report w self (auth_details name (stdout c)))%list,
            Ok 0%Z)
      else ([Exec cmd true;
             PrintExc "Error retrieving job details: " (CalledProcessError cmd c);
             Print ("stderr: " ++ stderr c);
             PrintExc "Error: " (CalledProcessError cmd c)], Ok 1%Z)
  | NotStarted msg =>
      ([Exec cmd true; PrintExc "Unexpected error: " (OSError msg);
        PrintExc "Error: "
          (RuntimeError "Failed to retrieve job details: " (OSError msg))], Ok 1%Z)
  end.
Proof.
  cbv zeta. unfold AutosysLogsAuth.retrieve. cbv [try_except bind].
  rewrite auth_get_job_details_spec. cbv zeta.
  destruct (run_argv w _) as [c|msg]; [destruct (Z.eqb (returncode c) 0)|];
    try reflexivity.
  rewrite auth_get_job_logs_spec. cbn. rewrite app_nil_r. reflexivity.
Qed.

Lemma find_after_none_resolved (label ext name text : string) :
  find_after (label ++ ":") text = None ->
  find_after ("job_dir" ++ ":") text = None ->
  resolved_path label ext name text = None.
Proof.
  intros Hl Hd. apply resolved_path_none.
  - unfold explicit_value, value_after. rewrite Hl. reflexivity.
  - unfold value_after. rewrite Hd. reflexivity.
Qed.

(** X8. When [autorep] succeeds with a report that holds none of the
    labels [std_out_file:], [std_err_file:] and [job_dir:], the plain
    script runs no other command and reads no file: after its first line
    and the query it shows the header and reports both streams as not
    available, removes the temporary directory and returns normally. *)
Theorem report_without_paths (argv : list string) (w : world) (c : completed) :
  List.length argv = 2 ->
  let name := nth 1 argv EmptyString in
  let cmd := ["autorep"; "-j"; name; "-L"] in
  run_argv w cmd = Ran c ->
  returncode c = 0%Z ->
  find_after "std_out_file:" (stdout c) = None ->
  find_after "std_err_file:" (stdout c) = None ->
  find_after "job_dir:" (stdout c) = None ->
  AutosysLogs.main argv w =
  ((Print ("Retrieving logs for Autosys job: " ++ name)
    :: Exec cmd true
    :: Mkdtemp "autosys_logs_"
    :: report_header name
         (leftmost (labelled "Status/Event: " word_at) (stdout c))
         (leftmost (labelled "Last Run: " date_time_at) (stdout c))
    ++ [Print (nl ++ "STDOUT LOG: Not available");
        Print (nl ++ "STDERR LOG: Not available");
        Rmtree (temp_dir w)])%list,
   Ok tt).
Proof.
  intros Hlen name cmd Hrun Hrc Ho He Hd.
  rewrite (plain_main_spec argv w Hlen). cbv zeta. fold name. fold cmd.
  rewrite Hrun, Hrc. cbn [Z.eqb].
  unfold plain_report, plain_details, stream_section.
  cbn [AutosysLogs.job_name AutosysLogs.status AutosysLogs.last_run
       AutosysLogs.std_out_file AutosysLogs.std_err_file].
  rewrite (find_after_none_resolved "std_out_file" _ _ _ Ho Hd).
  rewrite (find_after_none_resolved "std_err_file" _ _ _ He Hd).
  rewrite basic_status_leftmost, basic_last_run_leftmost.
  reflexivity.
Qed.

Lemma report_without_paths_witness :
  let w := sample_world (succeeds "Status/Event: RUNNING")
             (fun _ => breaks) [] EmptyString in
  AutosysLogs.main ["autosys-logs.py"; "job1"] w =
  ((Print "Retrieving logs for Autosys job: job1"
    :: Exec ["autorep"; "-j"; "job1"; "-L"] true
    :: Mkdtemp "autosys_logs_"
    :: report_header "job1" (Some "RUNNING") None
    ++ [Print (nl ++ "STDOUT LOG: Not available");
        Print (nl ++ "STDERR LOG: Not available");
        Rmtree "/tmp/autosys_logs_x"])%list,
   Ok tt).
Proof.
  exact (report_without_paths ["autosys-logs.py"; "job1"]
           (sample_world (succeeds "Status/Event: RUNNING")
              (fun _ => breaks) [] EmptyString)
           (succeeds "Status/Event: RUNNING")
           eq_refl eq_refl eq_refl eq_refl eq_refl eq_refl).
Defined.



(** ** The command line of the authenticated script *)

Lemma parse_arguments_spec (parsed : AutosysLogsAuth.namespace) (w : world) :
  AutosysLogsAuth.parse_arguments parsed w =
  if otruthy (chosen_job_name parsed)
  then ([], Ok (AutosysLogsAuth.Namespace
                  (chosen_job_name parsed)
                  (AutosysLogsAuth.ns_username parsed)
                  (AutosysLogsAuth.ns_password parsed)
                  (AutosysLogsAuth.ns_instance parsed)
                  (AutosysLogsAuth.ns_server parsed)
                  (AutosysLogsAuth.ns_job_name_positional parsed)))
  else ([ParserError
           "Job name is required. Use -j/--job or provide as positional argument."],
        Exit 2%Z).
Proof.
  destruct parsed as [j u p i s jp]. unfold chosen_job_name.
  cbv [AutosysLogsAuth.parse_arguments AutosysLogsAuth.ns_job_name
       AutosysLogsAuth.ns_job_name_positional AutosysLogsAuth.ns_username
       AutosysLogsAuth.ns_password AutosysLogsAuth.ns_instance
       AutosysLogsAuth.ns_server].
  destruct (otruthy j) eqn:Ej; cbn [negb andb].
  - rewrite Ej. reflexivity.
  - destruct (otruthy jp) eqn:Ejp; cbn [negb].
    + rewrite Ejp. reflexivity.
    + rewrite Ej. reflexivity.
Qed.

(** X10. [parse_arguments] takes the job name of [-j/--job] when it is
    given and not empty and the positional one otherwise, and leaves the
    other arguments as they are; when neither gives a name that is not
    empty it reports the error through the parser, and the script ends
    with exit code 2 before it has printed the banner, asked anything or
    run a command. *)
Theorem job_name_flag_before_positional (parsed : AutosysLogsAuth.namespace)
  (w : world) :
  (otruthy (chosen_job_name parsed) = true ->
   exists args,
     AutosysLogsAuth.parse_arguments parsed w = ([], Ok args)
     /\ AutosysLogsAuth.ns_job_name args = chosen_job_name parsed
     /\ (otruthy (AutosysLogsAuth.ns_job_name parsed) = true ->
         AutosysLogsAuth.ns_job_name args = AutosysLogsAuth.ns_job_name parsed)
     /\ (otruthy (AutosysLogsAuth.ns_job_name parsed) = false ->
         AutosysLogsAuth.ns_job_name args
         = AutosysLogsAuth.ns_job_name_positional parsed)
     /\ AutosysLogsAuth.ns_username args = AutosysLogsAuth.ns_username parsed
     /\ AutosysLogsAuth.ns_password args = AutosysLogsAuth.ns_password parsed
     /\ AutosysLogsAuth.ns_instance args = AutosysLogsAuth.ns_instance parsed
     /\ AutosysLogsAuth.ns_server args = AutosysLogsAuth.ns_server parsed)
  /\
  (otruthy (AutosysLogsAuth.ns_job_name parsed) = false ->
   otruthy (AutosysLogsAuth.ns_job_name_positional parsed) = false ->
   AutosysLogsAuth.script parsed w =
   ([ParserError
       "Job name is required. Use -j/--job or provide as positional argument."],
    Exit 2%Z)).
Proof.
  split.
  - intros Hc. eexists. rewrite parse_arguments_spec, Hc.
    split; [reflexivity|]. cbn [AutosysLogsAuth.ns_job_name
      AutosysLogsAuth.ns_username AutosysLogsAuth.ns_password
      AutosysLogsAuth.ns_instance AutosysLogsAuth.ns_server].
    unfold chosen_job_name.
    repeat split; intros H; rewrite ?H; reflexivity.
  - intros Hj Hp. unfold AutosysLogsAuth.script, AutosysLogsAuth.main, bind.
    rewrite parse_arguments_spec. unfold chosen_job_name. rewrite Hj, Hp.
    reflexivity.
Qed.

Lemma job_name_flag_before_positional_witness :
  let parsed := AutosysLogsAuth.Namespace (Some "nightly") None None None None
                  (Some "other") in
  let w := sample_world breaks (fun _ => breaks) [] EmptyString in
  exists args,
    AutosysLogsAuth.parse_arguments parsed w = ([], Ok args)
    /\ AutosysLogsAuth.ns_job_name args = Some "nightly".
Proof.
  destruct (proj1 (job_name_flag_before_positional
              (AutosysLogsAuth.Namespace (Some "nightly") None None None None
                 (Some "other"))
              (sample_world breaks (fun _ => breaks) [] EmptyString)) eq_refl)
    as (args & Hparse & Hname & _).
  exists args. split; [exact Hparse | exact Hname].
Defined.

(** ** The authenticated script as a whole *)

Lemma commands_auth_report (w : world) (self : AutosysLogsAuth.AutosysLogRetriever)
  (jd : AutosysLogsAuth.job_details) :
  commands (auth_report w self jd) =
  ((if needs_fallback w (AutosysLogsAuth.std_out_file jd)
    then [AutosysLogsAuth.autosyslog_cmd self (AutosysLogsAuth.job_name jd) true]
    else [])
   ++
   (if needs_fallback w (AutosysLogsAuth.std_err_file jd)
    then [AutosysLogsAuth.autosyslog_cmd self (AutosysLogsAuth.job_name jd) false]
    else []))%list.
Proof.
  unfold auth_report. cbn [commands report_header app].
  rewrite !commands_app, !commands_stream_section, !commands_auth_fallback.
  cbn [commands]. rewrite app_nil_r. reflexivity.
Qed.

Lemma commands_prompt_events (parsed : AutosysLogsAuth.namespace) :
  commands (prompt_events parsed) = [].
Proof.
  unfold prompt_events. destruct (asks_password parsed);
    destruct (asks_instance parsed); reflexivity.
Qed.


Lemma auth_script_spec (parsed args : AutosysLogsAuth.namespace) (w : world) :
  AutosysLogsAuth.parse_arguments parsed w = ([], Ok args) ->
  let job := str_opt (AutosysLogsAuth.ns_job_name args) in
  let r := AutosysLogsAuth.retrieve
             (AutosysLogsAuth.ns_username parsed)
             (final_password parsed w) (final_instance parsed w)
             (AutosysLogsAuth.ns_server parsed) job w in
  AutosysLogsAuth.script parsed w =
  ((banner job ++ prompt_events parsed ++ fst r)%list,
   match snd r with
   | Ok code => Exit code
   | Raise e => Raise e
   | Exit code => Exit code
   end).
Proof.
  intros Hparse. cbv zeta. unfold AutosysLogsAuth.script, bind.
  rewrite (auth_main_unfold _ _ _ Hparse). cbv zeta.
  destruct (AutosysLogsAuth.retrieve _ _ _ _ _ w) as [t [code|e|code]];
    cbn [fst snd sys_exit]; rewrite ?app_nil_r; reflexivity.
Qed.



(** X12. Every external command of a run of the authenticated script,
    the job-detail query and each fallback log query, ends with the same
    credential flags: those of the user name and the server from the
    command line and of the password and the instance as they are after
    the prompts, so that what the user types at a prompt is what the
    commands are given (an empty answer gives no flag). *)
Theorem typed_credentials_reach_every_command
  (parsed args : AutosysLogsAuth.namespace) (w : world) :
  AutosysLogsAuth.parse_arguments parsed w = ([], Ok args) ->
  let flags := (flag "-u" (AutosysLogsAuth.ns_username parsed)
                ++ flag "-p" (final_password parsed w)
                ++ flag "-i" (final_instance parsed w)
                ++ flag "-s" (AutosysLogsAuth.ns_server parsed))%list in
  Forall (fun cmd => skipn 4 cmd = flags)
         (commands (fst (AutosysLogsAuth.script parsed w)))
  /\ (asks_password parsed = true ->
      final_password parsed w
      = Some (getpass_line w ("Enter password for "
                              ++ str_opt (AutosysLogsAuth.ns_username parsed) ++ ": ")))
  /\ (asks_instance parsed = true ->
      final_instance parsed w = Some (input_line w "Enter Autosys instance name: ")).
Proof.
  intros Hparse flags. split; [|split].
  - rewrite (auth_script_spec _ _ _ Hparse). cbv zeta.
    rewrite auth_retrieve_spec. cbv zeta. fold (final_retriever parsed w).
    cbn [fst]. rewrite !commands_app, commands_prompt_events.
    cbn [banner commands app].
    assert (Hrep : skipn 4 (AutosysLogsAuth.autorep_cmd (final_retriever parsed w)
                     (str_opt (AutosysLogsAuth.ns_job_name args))) = flags).
    { rewrite autorep_cmd_flags. reflexivity. }
    assert (Hlog : forall name b,
               skipn 4 (AutosysLogsAuth.autosyslog_cmd (final_retriever parsed w) name b)
               = flags).
    { intros name b. rewrite autosyslog_cmd_flags. reflexivity. }
    destruct (run_argv w _) as [c|msg]; [destruct (Z.eqb (returncode c) 0)|];
      cbn [fst commands].
    + constructor; [exact Hrep|]. rewrite commands_auth_report.
      apply Forall_app. split.
      * destruct (needs_fallback w _); constructor; [apply Hlog | constructor].
      * destruct (needs_fallback w _); constructor; [apply Hlog | constructor].
    + constructor; [exact Hrep | constructor].
    + constructor; [exact Hrep | constructor].
  - unfold final_password, password_prompt. intros ->. reflexivity.
  - unfold final_instance, instance_prompt. intros ->. reflexivity.
Qed.

Lemma typed_credentials_reach_every_command_witness :
  let parsed := AutosysLogsAuth.Namespace (Some "job1") (Some "alice")
                  None (Some "ACE") None None in
  let w := sample_world (succeeds "std_out_file: /nowhere/job1.out")
             (fun _ => breaks) [] "secret" in
  Forall (fun cmd => skipn 4 cmd = ["-u"; "alice"; "-p"; "secret"; "-i"; "ACE"])
         (commands (fst (AutosysLogsAuth.script parsed w))).
Proof.
  exact (proj1 (typed_credentials_reach_every_command
           (AutosysLogsAuth.Namespace (Some "job1") (Some "alice")
              None (Some "ACE") None None)
           (AutosysLogsAuth.Namespace (Some "job1") (Some "alice")
              None (Some "ACE") None None)
           (sample_world (succeeds "std_out_file: /nowhere/job1.out")
              (fun _ => breaks) [] "secret")
           eq_refl)).
Defined.

(** ** The summarizers as a whole *)

Lemma shell_commands_app (t t' : list event) :
  shell_commands (t ++ t') = (shell_commands t ++ shell_commands t')%list.
Proof.
  induction t as [|e t IH]; [reflexivity|].
  destruct e; simpl; rewrite IH; reflexivity.
Qed.

Lemma shell_commands_command_events (out : string -> event) (w : world)
  (cmd : string) :
  (forall s, shell_commands [out s] = []) ->
  shell_commands (command_events out w cmd) = [cmd].
Proof.
  intros Hout. unfold command_events. cbv zeta. cbn [shell_commands].
  destruct (Z.eqb (returncode (run_shell w cmd)) 0); [reflexivity|].
  assert (H2 : forall x y, shell_commands [out x; out y] = []).
  { intros x y. change [out x; out y] with ([out x] ++ [out y])%list.
    rewrite shell_commands_app, !Hout. reflexivity. }
  rewrite H2. reflexivity.
Qed.

Lemma shell_commands_prints (m : SystemLogs.metadata_dict) :
  shell_commands (map (fun kv => Print (fst kv ++ ": " ++ str_opt (snd kv))) m) = [].
Proof. induction m as [|kv m IH]; [reflexivity | exact IH]. Qed.

Lemma system_main_commands (a : SystemLogs.args) (w : world) :
  shell_commands (fst (SystemLogs.main a w)) =
  [info_command (SystemLogs.job a);
   syslog_command (SystemLogs.job a) (SystemLogs.run a);
   details_command (SystemLogs.job a) (SystemLogs.run a);
   status_command (SystemLogs.job a)].
Proof.
  assert (H : shell_commands
                (fst (SystemLogs.get_system_logs (SystemLogs.job a)
                        (SystemLogs.run a) w)) =
              [info_command (SystemLogs.job a);
               syslog_command (SystemLogs.job a) (SystemLogs.run a);
               details_command (SystemLogs.job a) (SystemLogs.run a);
               status_command (SystemLogs.job a)]).
  { rewrite system_get_system_logs_spec. cbn [fst].
    rewrite !shell_commands_app, !shell_commands_command_events by reflexivity.
    reflexivity. }
  destruct (String.eqb_spec (SystemLogs.format a) "json") as [Hf|Hf].
  - rewrite (system_main_json a w Hf). cbn [fst].
    rewrite shell_commands_app, H. reflexivity.
  - rewrite (system_main_text a w Hf). cbn [fst].
    rewrite !shell_commands_app, H, shell_commands_prints. reflexivity.
Qed.

Lemma minimal_main_commands (a : MinimalSystemLogs.args) (w : world) :
  shell_commands (fst (MinimalSystemLogs.main a w)) =
  [syslog_command (MinimalSystemLogs.job a) (MinimalSystemLogs.run a)].
Proof.
  rewrite minimal_main_spec. cbn [fst].
  rewrite shell_commands_app, shell_commands_command_events by reflexivity.
  reflexivity.
Qed.

(** X13. The commands of the summarizers.  [autosys-system-logs.py] gives
    the shell four command lines, each once and in this order whatever
    the earlier ones returned: the job info ([autorep -j <job> -q]), the
    system log, the run details and the status history
    ([autorep -j <job> -s]); the minimal script gives it the system log
    command alone.  With a run number other than 0 the system log and
    the run details are asked for that run ([-r <run>]); without a run
    number, and with the run number 0, they are asked for the latest run
    ([autosyslog -j <job>] and [autorep -j <job> -l]). *)
Theorem summarizer_command_lines :
  (forall (a : SystemLogs.args) (w : world),
     let job := SystemLogs.job a in
     shell_commands (fst (SystemLogs.main a w)) =
     match SystemLogs.run a with
     | Some n =>
         if Z.eqb n 0
         then ["autorep -j " ++ job ++ " -q"; "autosyslog -j " ++ job;
               "autorep -j " ++ job ++ " -l"; "autorep -j " ++ job ++ " -s"]
         else ["autorep -j " ++ job ++ " -q";
               "autosyslog -j " ++ job ++ " -r " ++ str_of_int n;
               "autorep -j " ++ job ++ " -r " ++ str_of_int n;
               "autorep -j " ++ job ++ " -s"]
     | None =>
         ["autorep -j " ++ job ++ " -q"; "autosyslog -j " ++ job;
          "autorep -j " ++ job ++ " -l"; "autorep -j " ++ job ++ " -s"]
     end)
  /\
  (forall (a : MinimalSystemLogs.args) (w : world),
     let job := MinimalSystemLogs.job a in
     shell_commands (fst (MinimalSystemLogs.main a w)) =
     match MinimalSystemLogs.run a with
     | Some n =>
         if Z.eqb n 0 then ["autosyslog -j " ++ job]
         else ["autosyslog -j " ++ job ++ " -r " ++ str_of_int n]
     | None => ["autosyslog -j " ++ job]
     end).
Proof.
  split.
  - intros a w job. rewrite system_main_commands.
    unfold info_command, syslog_command, details_command, status_command.
    fold job. destruct (SystemLogs.run a) as [n|]; cbn; [|reflexivity].
    destruct (Z.eqb n 0); reflexivity.
  - intros a w job. rewrite minimal_main_commands. unfold syslog_command.
    fold job. destruct (MinimalSystemLogs.run a) as [n|]; cbn; [|reflexivity].
    destruct (Z.eqb n 0); reflexivity.
Qed.

Lemma printed_app (t t' : list event) :
  printed (t ++ t') = (printed t ++ printed t')%list.
Proof. apply filter_app. Qed.

Lemma printed_quiet (t : list event) :
  existsb is_print t = false -> printed t = [].
Proof.
  unfold printed. induction t as [|e t IH]; cbn [existsb filter]; [reflexivity|].
  intros H. apply orb_false_iff in H as [He Ht]. rewrite He. exact (IH Ht).
Qed.

Lemma printed_prints (m : SystemLogs.metadata_dict) :
  printed (map (fun kv => Print (fst kv ++ ": " ++ str_opt (snd kv))) m)
  = map (fun kv => Print (fst kv ++ ": " ++ str_opt (snd kv))) m.
Proof.
  unfold printed. induction m as [|kv m IH]; cbn [map filter is_print];
    [reflexivity | rewrite IH; reflexivity].
Qed.

(** X14. A run number 0 is reported but not used: the JSON documents of
    both summarizers carry [run_number] 0 and the text report says
    [Run Number: Latest], while the system log was fetched without a run
    number, as for the latest run. *)
Theorem run_number_zero_is_reported_not_used :
  (forall (a : SystemLogs.args) (w : world),
     SystemLogs.run a = Some 0%Z ->
     In (ExecShell ("autosyslog -j " ++ SystemLogs.job a)) (fst (SystemLogs.main a w))
     /\ (SystemLogs.format a = "json" ->
         exists t doc,
           SystemLogs.main a w = ((t ++ [PrintJson (Some 2) doc])%list, Ok tt)
           /\ lookup "run_number" doc = Some (JInt 0))
     /\ (SystemLogs.format a <> "json" ->
         In (Print "Run Number: Latest") (fst (SystemLogs.main a w))))
  /\
  (forall (a : MinimalSystemLogs.args) (w : world),
     MinimalSystemLogs.run a = Some 0%Z ->
     exists errors doc,
       MinimalSystemLogs.main a w =
       ((ExecShell ("autosyslog -j " ++ MinimalSystemLogs.job a) :: errors
         ++ [PrintJson (if MinimalSystemLogs.pretty a then Some 2 else None) doc])%list,
        Ok tt)
       /\ lookup "run_number" doc = Some (JInt 0)).
Proof.
  split.
  - intros a w Hrun. split; [|split].
    + destruct (String.eqb_spec (SystemLogs.format a) "json") as [Hf|Hf];
        [rewrite (system_main_json a w Hf) | rewrite (system_main_text a w Hf)];
        cbn [fst]; rewrite system_get_system_logs_spec; cbn [fst];
        unfold syslog_command; rewrite Hrun; cbn [SystemLogs.int_truthy Z.eqb negb];
        apply in_or_app; left; apply in_or_app; right; apply in_or_app; left;
        unfold command_events; left; reflexivity.
    + intros Hf. do 2 eexists. split; [apply (system_main_json a w Hf)|].
      rewrite Hrun. reflexivity.
    + intros Hf. rewrite (system_main_text a w Hf). cbn [fst]. rewrite Hrun.
      cbn [SystemLogs.int_truthy Z.eqb negb].
      apply in_or_app. right. apply in_or_app. left. right. left. reflexivity.
  - intros a w Hrun. rewrite minimal_main_spec. unfold syslog_command, command_events.
    rewrite Hrun. cbn [SystemLogs.int_truthy Z.eqb negb]. cbv zeta.
    do 2 eexists. split; [reflexivity|]. reflexivity.
Qed.

Lemma run_number_zero_is_reported_not_used_witness :
  let a := MinimalSystemLogs.Args "job1" (Some 0%Z) false in
  let w := sample_world breaks (fun _ => succeeds "log") [] EmptyString in
  exists errors doc,
    MinimalSystemLogs.main a w =
    ((ExecShell "autosyslog -j job1" :: errors ++ [PrintJson None doc])%list, Ok tt)
    /\ lookup "run_number" doc = Some (JInt 0).
Proof.
  exact (proj2 run_number_zero_is_reported_not_used
           (MinimalSystemLogs.Args "job1" (Some 0%Z) false)
           (sample_world breaks (fun _ => succeeds "log") [] EmptyString)
           eq_refl).
Defined.

Lemma printed_command_events_err (w : world) (cmd : string) :
  printed (command_events PrintErr w cmd) = [].
Proof. apply printed_quiet, command_events_quiet. Qed.

Lemma printed_system_logs (job : string) (run : option Z) (w : world) :
  printed (fst (SystemLogs.get_system_logs job run w)) = [].
Proof. apply printed_quiet, system_get_system_logs_quiet. Qed.

(** X15. What the summarizers write to standard output.  In
    [autosys-system-logs.py] with the JSON format it is the JSON document
    and nothing else, since the error lines of failed commands go to
    standard error.  In the minimal script the two error lines of a
    failed command are printed to standard output, before the JSON
    document: its standard output is the document alone only when the
    command succeeds. *)
Theorem standard_output_of_the_summarizers :
  (forall (a : SystemLogs.args) (w : world),
     SystemLogs.format a = "json" ->
     exists doc, printed (fst (SystemLogs.main a w)) = [PrintJson (Some 2) doc])
  /\
  (forall (a : MinimalSystemLogs.args) (w : world),
     let cmd := syslog_command (MinimalSystemLogs.job a) (MinimalSystemLogs.run a) in
     exists doc,
       printed (fst (MinimalSystemLogs.main a w)) =
       ((if Z.eqb (returncode (run_shell w cmd)) 0 then []
         else [Print ("Error running command: " ++ cmd);
               Print ("Error message: " ++ strip (stderr (run_shell w cmd)))])
        ++ [PrintJson (if MinimalSystemLogs.pretty a then Some 2 else None) doc])%list).
Proof.
  split.
  - intros a w Hf. rewrite (system_main_json a w Hf). cbn [fst].
    rewrite printed_app, printed_system_logs. eexists. reflexivity.
  - intros a w cmd. rewrite minimal_main_spec. cbn [fst]. fold cmd.
    rewrite printed_app. unfold command_events. cbv zeta.
    eexists. destruct (Z.eqb (returncode (run_shell w cmd)) 0); reflexivity.
Qed.

Lemma standard_output_of_the_summarizers_witness :
  let a := SystemLogs.Args "job1" None "json" in
  let w := sample_world breaks (fun _ => breaks) [] EmptyString in
  exists doc, printed (fst (SystemLogs.main a w)) = [PrintJson (Some 2) doc].
Proof.
  exact (proj1 standard_output_of_the_summarizers
           (SystemLogs.Args "job1" None "json")
           (sample_world breaks (fun _ => breaks) [] EmptyString) eq_refl).
Defined.

(** X16. The text report of [autosys-system-logs.py] (any format other
    than [json]).  Standard output holds, in this order: the title with
    the job name, the run number (or [Latest] without one), the time
    stamp, the metadata heading with one line [<attribute>: <value>] for
    each entry of the metadata mapping in its order, and the three
    sections run details, status history and system logs, each with the
    stripped output of its command or the word [None]; no JSON document
    is printed. *)
Theorem text_report_lines (a : SystemLogs.args) (w : world) :
  SystemLogs.format a <> "json" ->
  let job := SystemLogs.job a in
  let run := SystemLogs.run a in
  printed (fst (SystemLogs.main a w)) =
  ([Print ("=== AutoSys System Logs for Job: " ++ job ++ " ===");
    Print ("Run Number: "
           ++ match run with
              | Some n => if Z.eqb n 0 then "Latest" else str_of_int n
              | None => "Latest"
              end);
    Print ("Timestamp: " ++ now_isoformat w);
    Print (nl ++ "=== Job Metadata ===")]
   ++ map (fun kv => Print (fst kv ++ ": " ++ str_opt (snd kv)))
        (SystemLogs.extract_job_metadata (shell_result w (info_command job)))
   ++ [Print (nl ++ "=== Run Details ===");
       Print (str_opt (shell_result w (details_command job run)));
       Print (nl ++ "=== Status History ===");
       Print (str_opt (shell_result w (status_command job)));
       Print (nl ++ "=== System Logs ===");
       Print (str_opt (shell_result w (syslog_command job run)))])%list
  /\ snd (SystemLogs.main a w) = Ok tt.
Proof.
  intros Hf job run. rewrite (system_main_text a w Hf). cbn [fst snd].
  split; [|reflexivity].
  rewrite !printed_app, printed_system_logs, printed_prints. fold job. fold run.
  destruct run as [n|]; [destruct (Z.eqb n 0) eqn:E|];
    cbn [SystemLogs.int_truthy SystemLogs.str_opt_int negb app];
    rewrite ?E; reflexivity.
Qed.

Lemma text_report_lines_witness :
  let a := SystemLogs.Args "job1" None "text" in
  let w := sample_world breaks (fun _ => breaks) [] EmptyString in
  snd (SystemLogs.main a w) = Ok tt.
Proof.
  refine (proj2 (text_report_lines (SystemLogs.Args "job1" None "text")
                   (sample_world breaks (fun _ => breaks) [] EmptyString) _)).
  discriminate.
Defined.

(** ** The fallback query and the header of the report *)

(** X17. [retrieve_log_via_autosys] runs [autosyslog -j <job> -o] (or
    [-e]) with the credential flags and captures its output.  When the
    command returns 0 it prints the captured standard output; when it
    returns another code it prints the exit code and the captured
    standard error and still returns normally; only a command that cannot
    be started makes it raise, for its caller to report. *)
Theorem fallback_query_reports_its_failure
  (self : AutosysLogsAuth.AutosysLogRetriever) (name : string)
  (is_stdout : bool) (w : world) :
  let cmd := (["autosyslog"; "-j"; name; if is_stdout then "-o" else "-e"]
              ++ credential_flags self)%list in
  AutosysLogsAuth.retrieve_log_via_autosys self name is_stdout w =
  match run_argv w cmd with
  | Ran c =>
      if Z.eqb (returncode c) 0
      then ([Exec cmd true; Print (stdout c)], Ok tt)
      else ([Exec cmd true;
             Print ("Error running autosyslog command. Exit code: "
                    ++ str_of_int (returncode c));
             Print ("Error message: " ++ stderr c)], Ok tt)
  | NotStarted msg => ([Exec cmd true], Raise (OSError msg))
  end.
Proof.
  cbv zeta. rewrite <- autosyslog_cmd_flags.
  cbv [AutosysLogsAuth.retrieve_log_via_autosys try_except bind subprocess_run
       emit ask print].
  destruct (run_argv w _) as [c|msg]; [destruct (Z.eqb (returncode c) 0)|];
    reflexivity.
Qed.

Lemma in_header_status (name : string) (st lr : option string) (rest : list event) :
  In (Print ("Status: " ++ str_opt st)) (report_header name st lr ++ rest).
Proof. apply in_or_app. left. unfold report_header. cbn [In]. auto 6. Qed.

Lemma in_header_last_run (name : string) (st lr : option string) (rest : list event) :
  In (Print ("Last Run: " ++ str_opt lr)) (report_header name st lr ++ rest).
Proof. apply in_or_app. left. unfold report_header. cbn [In]. auto 6. Qed.

(** X18. A status or last run that was not found is shown by its Python
    name: when [autorep] succeeds and the report holds no
    [Status/Event:] label, the script prints [Status: None], and without
    a [Last Run:] label it prints [Last Run: None]; this is so in the
    plain script and in the authenticated one, whose default [Unknown]
    never shows because the record always has both keys. *)
Theorem missing_status_is_shown_as_None :
  (forall (argv : list string) (w : world) (c : completed),
     List.length argv = 2 ->
     run_argv w ["autorep"; "-j"; nth 1 argv EmptyString; "-L"] = Ran c ->
     returncode c = 0%Z ->
     (find_after "Status/Event: " (stdout c) = None ->
      In (Print "Status: None") (fst (AutosysLogs.main argv w)))
     /\ (find_after "Last Run: " (stdout c) = None ->
         In (Print "Last Run: None") (fst (AutosysLogs.main argv w))))
  /\
  (forall (parsed args : AutosysLogsAuth.namespace) (w : world) (c : completed),
     AutosysLogsAuth.parse_arguments parsed w = ([], Ok args) ->
     run_argv w (AutosysLogsAuth.autorep_cmd (final_retriever parsed w)
                   (str_opt (AutosysLogsAuth.ns_job_name args))) = Ran c ->
     returncode c = 0%Z ->
     (find_after "Status/Event:" (stdout c) = None ->
      In (Print "Status: None") (fst (AutosysLogsAuth.script parsed w)))
     /\ (find_after "Last Run:" (stdout c) = None ->
         In (Print "Last Run: None") (fst (AutosysLogsAuth.script parsed w)))).
Proof.
  split.
  - intros argv w c Hlen Hrun Hrc. rewrite (plain_main_spec argv w Hlen). cbv zeta.
    rewrite Hrun, Hrc. cbn [Z.eqb fst]. unfold plain_report, plain_details.
    cbn [AutosysLogs.job_name AutosysLogs.status AutosysLogs.last_run].
    rewrite basic_status_leftmost, basic_last_run_leftmost.
    split; intros H; rewrite (leftmost_absent _ _ _ H); do 3 right.
    + apply (in_header_status _ None).
    + apply (in_header_last_run _ _ None).
  - intros parsed args w c Hparse Hrun Hrc.
    rewrite (auth_script_spec _ _ _ Hparse). cbv zeta.
    rewrite auth_retrieve_spec. cbv zeta. fold (final_retriever parsed w).
    rewrite Hrun, Hrc. cbn [Z.eqb fst]. unfold auth_report, auth_details.
    cbn [AutosysLogsAuth.job_name AutosysLogsAuth.status AutosysLogsAuth.last_run].
    rewrite auth_status_leftmost, auth_last_run_leftmost.
    split; intros H; rewrite (leftmost_absent _ _ _ H);
      apply in_or_app; right; apply in_or_app; right; do 2 right.
    + apply (in_header_status _ None).
    + apply (in_header_last_run _ _ None).
Qed.

Lemma missing_status_is_shown_as_None_witness :
  let w := sample_world (succeeds "job_dir: /a") (fun _ => breaks) [] EmptyString in
  In (Print "Status: None") (fst (AutosysLogs.main ["autosys-logs.py"; "job1"] w)).
Proof.
  exact (proj1 (proj1 missing_status_is_shown_as_None
           ["autosys-logs.py"; "job1"]
           (sample_world (succeeds "job_dir: /a") (fun _ => breaks) [] EmptyString)
           (succeeds "job_dir: /a") eq_refl eq_refl eq_refl) eq_refl).
Defined.
